(** * swarmgo: the agent and tool layer ([agent.go])

    A shallow embedding of [agent.go] of package [swarmgo]: the schema
    compiler [NewAgentFunction], the descriptor [FunctionToDefinition], the
    constructor [NewAgent] and the builder methods of [*Agent].

    Conventions of the embedding.
    - A Go [string] is a [string] (a sequence of bytes); [k[0]] is
      [String.get 0 k].
    - A Go [map[string]T] is a [gmap string T]; a nil map and an empty map
      are both [∅] (the code never tells them apart: it only ranges over,
      reads and marshals maps).
    - A Go slice is a [list]; a nil slice is [[]].
    - A non-nil [error] is its message; a function returning [(T, error)]
      returns a [result T].
    - A run-time panic is the outcome [Panic]; a normal return is [Return].
    - [*Agent] values are addresses in an explicit store, so that the
      in-place updates of the builder methods and the identity of the pointer
      they return are visible.
    - The iteration order of [for k := range m] is chosen by the Go runtime;
      it is an explicit argument (a list of naturals driving a shuffle).

    What is covered of the packages [agent.go] calls.
    - Argument types: the scalar kinds (booleans, integers, floats,
      strings), [map[string]interface{}], and structs all of whose fields
      are of a scalar kind and carry at most a [json] name with [omitempty]
      and a [jsonschema] tag made of [required] and [description=].  Nested
      structs, slices, pointers, interfaces, [time.Time] and the like, the
      other [jsonschema] keywords, and the types on which the reflector
      panics (channels, functions, complex numbers, a nil type) are not
      covered; no statement below speaks of them.
    - JSON: strings and keys are valid UTF-8 and are written as they are
      (the replacement of invalid bytes by U+FFFD is not covered); numbers
      have an integral value and are kept exactly (the rounding and the
      range of [float64] are not covered). *)

From Stdlib Require Import ZArith String Ascii.
From stdpp Require Import gmap strings list fin_maps sorting pretty.

Set Warnings "-register-all".

Local Open Scope string_scope.

(** ** Errors, results and panics *)

(** [(T, error)]: either the value (and a nil error) or a non-nil error. *)
Inductive result (A : Type) : Type :=
  | Ok (a : A)
  | Err (msg : string).
Arguments Ok {A} a.
Arguments Err {A} msg.

Definition result_bind {A B} (f : A → result B) (r : result A) : result B :=
  match r with Ok a => f a | Err e => Err e end.

#[global] Instance result_ret : MRet result := λ A a, Ok a.
#[global] Instance result_mbind : MBind result := λ A B f r, result_bind f r.
#[global] Instance result_fmap : FMap result :=
  λ A B f r, result_bind (λ a, Ok (f a)) r.

(** What a call does: return normally, or panic. *)
Inductive outcome (A : Type) : Type :=
  | Return (a : A)
  | Panic (reason : string).
Arguments Return {A} a.
Arguments Panic {A} reason.

(** The Go [error] interface: [None] is nil. *)
Definition error : Type := option string.

(** [fmt.Errorf(prefix + "%v", err)]. *)
Definition Errorf (prefix : string) (err : string) : string := prefix +:+ err.

(** ** The runtime's choice of iteration order *)

(** [shuffle ρ l] removes, for each number [n] of [ρ] in turn, the element at
    position [n mod length l] of what is left and emits it; what remains when
    [ρ] is exhausted follows in its original order. *)
Fixpoint shuffle {A} (ρ : list nat) (l : list A) : list A :=
  match ρ with
  | [] => l
  | n :: ρ' =>
      let i := n mod length l in
      match l !! i with
      | None => l
      | Some x => x :: shuffle ρ' (delete i l)
      end
  end.

(** ** Package [encoding/json] *)

Module json.

(** A JSON text as produced by [Marshal]: the byte slice is represented by
    the tree of the JSON grammar it spells.  Object members are kept in the
    order written and may repeat.  Insignificant white space (all that
    [MarshalIndent] adds to [Marshal]) and string escapes are below this
    representation.  Strings are valid UTF-8, numbers are integers. *)
Inductive text : Type :=
  | TNull
  | TBool (b : bool)
  | TNum (n : Z)
  | TStr (s : string)
  | TArr (elems : list text)
  | TObj (members : list (string * text)).

(** The dynamic values an [interface{}] holds in this program: what
    [Unmarshal] stores into an [interface{}], and [Chan] for any value
    [Marshal] rejects (a channel, a function, a complex number).  Numbers
    are those with an integral value. *)
Inductive any : Type :=
  | Nil
  | Bool (b : bool)
  | Number (n : Z)
  | Str (s : string)
  | Slice (elems : list any)
  | Map (m : gmap string any)
  | Chan.

#[global] Instance any_inhabited : Inhabited any := populate Nil.

(** The name [Unmarshal] gives a JSON value in its type errors. *)
Definition describe (t : text) : string :=
  match t with
  | TNull => "null"
  | TBool _ => "bool"
  | TNum _ => "number"
  | TStr _ => "string"
  | TArr _ => "array"
  | TObj _ => "object"
  end.

(** Insertion sort of object members by key: [Marshal] writes the keys of
    a map in increasing byte order. *)
Fixpoint insert_by_key {V} (kv : string * V) (l : list (string * V))
  : list (string * V) :=
  match l with
  | [] => [kv]
  | kv' :: l' =>
      if String.leb kv.1 kv'.1 then kv :: l
      else kv' :: insert_by_key kv l'
  end.

Definition sort_by_key {V} (l : list (string * V)) : list (string * V) :=
  foldr insert_by_key [] l.

(** The first error of the members in order, or all the members. *)
Fixpoint members_of (l : list (string * result text))
  : result (list (string * text)) :=
  match l with
  | [] => Ok []
  | (k, r) :: l' =>
      match r with
      | Err e => Err e
      | Ok t => (λ ms, (k, t) :: ms) <$> members_of l'
      end
  end.

Fixpoint elems_of (l : list (result text)) : result (list text) :=
  match l with
  | [] => Ok []
  | r :: l' =>
      match r with
      | Err e => Err e
      | Ok t => (λ ts, t :: ts) <$> elems_of l'
      end
  end.

(** [Marshal] on a dynamic value.  Strings and keys are valid UTF-8, which
    [Marshal] writes unchanged. *)
Fixpoint encode (v : any) : result text :=
  match v with
  | Nil => Ok TNull
  | Bool b => Ok (TBool b)
  | Number n => Ok (TNum n)
  | Str s => Ok (TStr s)
  | Slice l => TArr <$> elems_of (map encode l)
  | Map m => TObj <$> members_of (sort_by_key (map_to_list (encode <$> m)))
  | Chan => Err "json: unsupported type: chan int"
  end.

(** [Unmarshal] into an [interface{}]: objects become maps, a repeated key
    keeping its last value.  A number is kept exactly: the numbers are the
    integers a [float64] holds without rounding. *)
Fixpoint decode (t : text) : any :=
  match t with
  | TNull => Nil
  | TBool b => Bool b
  | TNum n => Number n
  | TStr s => Str s
  | TArr l => Slice (map decode l)
  | TObj ms => Map (foldl (λ m kv, <[kv.1 := decode kv.2]> m) ∅ ms)
  end.

(** Types [Marshal] accepts and types [Unmarshal] can fill: Go finds the
    encoder and the decoder of a type by reflection.  A decoder starts from
    the value already stored in the target. *)
Class Marshaler (T : Type) := marshalJSON : T → result text.
Class Unmarshaler (T : Type) := unmarshalJSON : text → T → result T.

Definition Marshal {T} `{Marshaler T} (v : T) : result text :=
  marshalJSON v.

(** [MarshalIndent(v, prefix, indent)] is [Marshal(v)] followed by
    [Indent], which only inserts white space. *)
Definition MarshalIndent {T} `{Marshaler T} (v : T) (prefix indent : string)
  : result text :=
  Marshal v.

(** [Unmarshal(data, &v)]: the value [v] points to after the call. *)
Definition Unmarshal {T} `{Unmarshaler T} (data : text) (v : T) : result T :=
  unmarshalJSON data v.

(** [map[string]interface{}] *)
#[global] Instance marshal_map : Marshaler (gmap string any) :=
  λ m, encode (Map m).

#[global] Instance unmarshal_map : Unmarshaler (gmap string any) :=
  λ t m0,
    match t with
    | TObj ms => Ok (foldl (λ m kv, <[kv.1 := decode kv.2]> m) m0 ms)
    | TNull => Ok ∅
    | _ => Err ("json: cannot unmarshal " +:+ describe t +:+
                " into Go value of type map[string]interface {}")
    end.

End json.

(** ** Package [reflect]: the struct types tools take as arguments *)

Module reflect.

(** The scalar kinds of [reflect.Kind]. *)
Inductive Kind : Type :=
  | Bool
  | Int | Int8 | Int16 | Int32 | Int64
  | Uint | Uint8 | Uint16 | Uint32 | Uint64
  | Float32 | Float64
  | String.

(** An exported field that no tag ignores, with its tags split into the
    parts that are read: [json:"<jsonName>[,omitempty]"] and
    [jsonschema:"[required][,description=<description>]"]. *)
Record StructField : Type := {
  Name : string;
  Type_ : Kind;
  jsonName : string;
  jsonOmitempty : bool;
  tagRequired : bool;
  tagDescription : string;
}.

(** What a type is made of: a scalar, the map type
    [map[string]interface{}], or a struct with scalar fields.  These are the
    argument types covered; every other type, and so every type on which
    [jsonschema] panics, is left out. *)
Inductive Shape : Type :=
  | ScalarOf (k : Kind)
  | MapOfInterface
  | StructOf (fields : list StructField).

(** A type as reflection shows it.  [TypeName] is empty for an unnamed type.
    [TypeID] is the schema identifier package [jsonschema] derives from the
    package path and the name of the type ([https://<PkgPath>/<name>]); it is
    empty when that is not a valid URL. *)
Record rtype : Type := {
  TypeName : string;
  TypeID : string;
  TypeShape : Shape;
}.

(** [reflect.TypeOf] on the values of a Go type. *)
Class Typed (I : Type) := TypeOf : I → rtype.

(** [map[string]interface{}] is unnamed and belongs to no package. *)
#[global] Instance typed_map : Typed (gmap string json.any) :=
  λ _, {| TypeName := ""; TypeID := ""; TypeShape := MapOfInterface |}.

End reflect.

(** ** Package [github.com/invopop/jsonschema] *)

Module jsonschema.
Import reflect.

(** The fields of [jsonschema.Schema] this program can populate, in the
    order of their declaration (which is the order [Marshal] writes them
    in). *)
Inductive Schema : Type := mkSchema {
  Version : string;                                (* "$schema,omitempty" *)
  ID : string;                                     (* "$id,omitempty" *)
  Ref : string;                                    (* "$ref,omitempty" *)
  Definitions : list (string * Schema);            (* "$defs,omitempty" *)
  Properties : option (list (string * Schema));    (* "properties,omitempty" *)
  AdditionalProperties : option Schema;  (* "additionalProperties,omitempty" *)
  Type_ : string;                                  (* "type,omitempty" *)
  Required : list string;                          (* "required,omitempty" *)
  Description : string;                            (* "description,omitempty" *)
  boolean : option bool;
}.

(** [&Schema{}] *)
Definition emptySchema : Schema :=
  mkSchema "" "" "" [] None None "" [] "" None.

Definition FalseSchema : Schema :=
  mkSchema "" "" "" [] None None "" [] "" (Some false).

Definition isEmpty (s : Schema) : bool :=
  match s with
  | mkSchema "" "" "" [] None None "" [] "" None => true
  | _ => false
  end.

Definition Version_ : string :=
  "https://json-schema.org/draft/2020-12/schema".

Record Reflector : Type := {
  RequiredFromJSONSchemaTags : bool;
  AllowAdditionalProperties : bool;
  DoNotReference : bool;
}.

(** [OrderedMap.Set]: a present key keeps its place and takes the new
    value, a new key goes last. *)
Fixpoint Set_ {V} (k : string) (v : V) (m : list (string * V))
  : list (string * V) :=
  match m with
  | [] => [(k, v)]
  | kv :: m' =>
      if decide (kv.1 = k) then (k, v) :: m' else kv :: Set_ k v m'
  end.

Definition appendUniqueString (base : list string) (value : string)
  : list string :=
  if decide (value ∈ base) then base else base ++ [value].

(** The [switch t.Kind()] of [reflectTypeToSchema], scalar cases. *)
Definition kindType (k : Kind) : string :=
  match k with
  | Int | Int8 | Int16 | Int32 | Int64
  | Uint | Uint8 | Uint16 | Uint32 | Uint64 => "integer"
  | Float32 | Float64 => "number"
  | Bool => "boolean"
  | String => "string"
  end.

(** [reflectFieldName]: the property name and whether it is required. *)
Definition reflectFieldName (r : Reflector) (f : StructField)
  : string * bool :=
  let required :=
    (if RequiredFromJSONSchemaTags r then false else negb (jsonOmitempty f))
    || tagRequired f in
  let name := if decide (jsonName f = "") then Name f else jsonName f in
  (name, required).

(** The schema of one field: its type, then the keywords of its tag. *)
Definition property (f : StructField) : Schema :=
  mkSchema "" "" "" [] None None
           (kindType (reflect.Type_ f)) [] (tagDescription f) None.

(** [handleField] of [reflectStructFields]. *)
Definition handleField (r : Reflector) (s : Schema) (f : StructField)
  : Schema :=
  let '(name, required) := reflectFieldName r f in
  if decide (name = "") then s
  else
    mkSchema (Version s) (ID s) (Ref s) (Definitions s)
             (Some (Set_ name (property f) (default [] (Properties s))))
             (AdditionalProperties s) (Type_ s)
             (if required then appendUniqueString (Required s) name
              else Required s)
             (Description s) (boolean s).

Definition reflectStruct (r : Reflector) (fields : list StructField)
  : Schema :=
  foldl (handleField r)
        (mkSchema "" "" "" [] (Some [])
                  (if AllowAdditionalProperties r then None
                   else Some FalseSchema)
                  "object" [] "" None)
        fields.

(** [reflectMap] on [map[string]interface{}]: an object, with nothing said
    of its members. *)
Definition reflectMap : Schema :=
  mkSchema "" "" "" [] None None "object" [] "" None.

(** The schema [reflectTypeToSchema] builds for the type itself, on the
    types covered: a struct goes through [reflectStructFields], the map type
    through [reflectMap], a scalar through the [switch] on its kind.  None of
    these paths panics. *)
Definition reflectTypeToSchema (r : Reflector) (t : rtype) : Schema :=
  match TypeShape t with
  | StructOf fields => reflectStruct r fields
  | MapOfInterface => reflectMap
  | ScalarOf k => mkSchema "" "" "" [] None None (kindType k) [] "" None
  end.

(** [addDefinition]: named struct and map types are entered under their
    name. *)
Definition defined (t : rtype) : bool :=
  match TypeShape t with
  | ScalarOf _ => false
  | _ => negb (bool_decide (TypeName t = ""))
  end.

(** [ReflectFromType]: a type entered in the definitions is replaced by a
    reference to its entry unless references are off. *)
Definition ReflectFromType (r : Reflector) (t : rtype) : Schema :=
  let st := reflectTypeToSchema r t in
  let inline := DoNotReference r || negb (defined t) in
  let bs :=
    if inline then st
    else mkSchema "" "" ("#/$defs/" +:+ TypeName t) [] None None "" [] ""
                  None in
  mkSchema Version_
           (if decide (ID bs = "") then TypeID t else ID bs)
           (Ref bs)
           (if inline then [] else [(TypeName t, st)])
           (Properties bs) (AdditionalProperties bs) (Type_ bs)
           (Required bs) (Description bs) (boolean bs).

Definition Reflect {I} `{Typed I} (r : Reflector) (v : I) : Schema :=
  ReflectFromType r (TypeOf v).

(** [Schema.MarshalJSON]: a boolean schema is its boolean, the empty schema
    is [true], any other schema is the object of its non-empty fields. *)
Definition omitempty (key value : string) : list (string * json.text) :=
  if decide (value = "") then [] else [(key, json.TStr value)].

Fixpoint marshalSchema (s : Schema) : json.text :=
  match s with
  | mkSchema _ _ _ _ _ _ _ _ _ (Some b) => json.TBool b
  | mkSchema version id ref defs props addl type required descr None =>
      if isEmpty s then json.TBool true
      else
        json.TObj
          (omitempty "$schema" version ++
           omitempty "$id" id ++
           omitempty "$ref" ref ++
           match defs with
           | [] => []
           | _ => [("$defs",
                    json.TObj
                      (json.sort_by_key
                         (map (λ kv, (kv.1, marshalSchema kv.2)) defs)))]
           end ++
           match props with
           | None => []
           | Some ps =>
               [("properties",
                 json.TObj (map (λ kv, (kv.1, marshalSchema kv.2)) ps))]
           end ++
           match addl with
           | None => []
           | Some a => [("additionalProperties", marshalSchema a)]
           end ++
           omitempty "type" type ++
           match required with
           | [] => []
           | _ => [("required", json.TArr (map json.TStr required))]
           end ++
           omitempty "description" descr)
  end.

#[global] Instance marshal_schema : json.Marshaler Schema :=
  λ s, Ok (marshalSchema s).

End jsonschema.

(** ** Package [llm] *)

Module llm.

(** Modelled from the spec: the provider reference of an agent ("target model
    identifier, provider reference"); its declaration is in package [llm].
    Only the identity of a provider matters here. *)
Definition LLMProvider : Type := string.

(** The tool descriptor handed to the model capability; the three fields are
    those [FunctionToDefinition] fills. *)
Record Function : Type := {
  Name : string;
  Description : string;
  Parameters : gmap string json.any;
}.

End llm.

(** ** Package [swarmgo]: data *)

(** Addresses of heap objects; a pointer is an address or nil. *)
Definition loc : Type := positive.
Definition ptr : Type := option loc.
Abbreviation nil := (@None loc).

(** [map[string]interface{}] *)
Abbreviation ContextVariables := (gmap string json.any).

Module Result.

(** Modelled from the spec: the type [Result] ("success flag, an opaque data
    payload, an optional error, and an optional next-agent reference"); its
    declaration is not in [agent.go], which builds it with the fields
    [Success] and [Error]. *)
Record t : Type := {
  Success : bool;
  Data : json.any;
  Error : error;
  Agent : ptr;
}.

End Result.

(** The zero value of a type: [var zero I]. *)
Class Zero (I : Type) := zero : I.

#[global] Instance zero_map {V} : Zero (gmap string V) := (∅ : gmap string V).

(** A user function may panic, as any Go function may. *)
Definition AgentFunctionExecutor (I : Type) : Type :=
  I → ContextVariables → outcome Result.t.

Module AgentFunction.

Record t (I : Type) : Type := {
  Name : string;
  Description : string;
  params : gmap string json.any;
  executor : AgentFunctionExecutor I;
}.
Arguments Name {I} _.
Arguments Description {I} _.
Arguments params {I} _.
Arguments executor {I} _.

End AgentFunction.

Module MemoryStore.

(** Modelled from the spec: the memory store ("bounded append log per agent;
    [...] eviction policy is FIFO at capacity N, chosen at construction"); its
    declaration is not in [agent.go]. *)
Record t : Type := {
  capacity : Z;
  log : list string;
}.

End MemoryStore.

Module Agent.

Record t : Type := {
  Name : string;
  Model : string;
  Provider : llm.LLMProvider;
  Config : ptr;
  Instructions : string;
  InstructionsFunc : option (ContextVariables → string);
  Functions : list (AgentFunction.t (gmap string json.any));
  Memory : ptr;
  ParallelToolCalls : bool;
}.

(** Assignment to one field. *)
Definition set_Config (v : ptr) (a : t) : t :=
  {| Name := Name a; Model := Model a; Provider := Provider a; Config := v;
     Instructions := Instructions a; InstructionsFunc := InstructionsFunc a;
     Functions := Functions a; Memory := Memory a;
     ParallelToolCalls := ParallelToolCalls a |}.

Definition set_Instructions (v : string) (a : t) : t :=
  {| Name := Name a; Model := Model a; Provider := Provider a;
     Config := Config a; Instructions := v;
     InstructionsFunc := InstructionsFunc a; Functions := Functions a;
     Memory := Memory a; ParallelToolCalls := ParallelToolCalls a |}.

Definition set_InstructionsFunc (v : option (ContextVariables → string))
  (a : t) : t :=
  {| Name := Name a; Model := Model a; Provider := Provider a;
     Config := Config a; Instructions := Instructions a;
     InstructionsFunc := v; Functions := Functions a; Memory := Memory a;
     ParallelToolCalls := ParallelToolCalls a |}.

Definition set_Functions (v : list (AgentFunction.t (gmap string json.any)))
  (a : t) : t :=
  {| Name := Name a; Model := Model a; Provider := Provider a;
     Config := Config a; Instructions := Instructions a;
     InstructionsFunc := InstructionsFunc a; Functions := v;
     Memory := Memory a; ParallelToolCalls := ParallelToolCalls a |}.

Definition set_ParallelToolCalls (v : bool) (a : t) : t :=
  {| Name := Name a; Model := Model a; Provider := Provider a;
     Config := Config a; Instructions := Instructions a;
     InstructionsFunc := InstructionsFunc a; Functions := Functions a;
     Memory := Memory a; ParallelToolCalls := v |}.

End Agent.

(** ** The store and the monad of code that reads and writes it *)

Record heap : Type := {
  agents : gmap loc Agent.t;
  stores : gmap loc MemoryStore.t;
}.

Definition go (A : Type) : Type := heap → outcome (A * heap).

Definition go_ret {A} (a : A) : go A := λ h, Return (a, h).

Definition go_bind {A B} (f : A → go B) (c : go A) : go B :=
  λ h, match c h with
       | Return (a, h') => f a h'
       | Panic p => Panic p
       end.

#[global] Instance go_mret : MRet go := @go_ret.
#[global] Instance go_mbind : MBind go := @go_bind.

Definition nil_dereference : string :=
  "runtime error: invalid memory address or nil pointer dereference".

(** [&Agent{...}]: a new object at an unused address. *)
Definition new_agent (a : Agent.t) : go ptr :=
  λ h, let l := fresh (dom (agents h)) in
       Return (Some l, {| agents := <[l := a]> (agents h); stores := stores h |}).

Definition new_store (s : MemoryStore.t) : go ptr :=
  λ h, let l := fresh (dom (stores h)) in
       Return (Some l, {| agents := agents h; stores := <[l := s]> (stores h) |}).

(** [a.f = v] through a pointer [a]: panics when [a] is nil. *)
Definition assign (a : ptr) (upd : Agent.t → Agent.t) : go () :=
  λ h, match a with
       | Some l =>
           match agents h !! l with
           | Some ag =>
               Return ((), {| agents := <[l := upd ag]> (agents h);
                              stores := stores h |})
           | None => Panic nil_dereference
           end
       | None => Panic nil_dereference
       end.

(** [a.f] through a pointer [a]. *)
Definition load {A} (a : ptr) (f : Agent.t → A) : go A :=
  λ h, match a with
       | Some l =>
           match agents h !! l with
           | Some ag => Return (f ag, h)
           | None => Panic nil_dereference
           end
       | None => Panic nil_dereference
       end.

(** ** Package [swarmgo]: the functions of [agent.go] *)

(** [FunctionToDefinition] *)
Definition FunctionToDefinition {I} (af : AgentFunction.t I) : llm.Function :=
  {| llm.Name := AgentFunction.Name af;
     llm.Description := AgentFunction.Description af;
     llm.Parameters := AgentFunction.params af |}.

(** [for k, _ := range m]: the keys of [m] in the order the runtime picks. *)
Definition range {V} (ρ : list nat) (m : gmap string V) : list string :=
  shuffle ρ (map fst (map_to_list m)).

Definition index_out_of_range : string :=
  "runtime error: index out of range [0] with length 0".

(** The body of the loop of [NewAgentFunction], over the keys still to visit:
    [if k[0] == '$' { continue }; params[k] = schemaMap[k]]. *)
Fixpoint NewAgentFunction_loop (schemaMap : gmap string json.any)
  (keys : list string) (params : gmap string json.any)
  : outcome (gmap string json.any) :=
  match keys with
  | [] => Return params
  | k :: keys' =>
      match String.get 0 k with
      | None => Panic index_out_of_range
      | Some c =>
          if decide (c = "$"%char) then
            NewAgentFunction_loop schemaMap keys' params
          else
            NewAgentFunction_loop schemaMap keys'
              (<[k := default json.Nil (schemaMap !! k)]> params)
      end
  end.

(** The closure [NewAgentFunction] stores as the executor of the tool. *)
Definition NewAgentFunction_executor {I} `{Zero I, json.Unmarshaler I}
  (executor : AgentFunctionExecutor I)
  : AgentFunctionExecutor (gmap string json.any) :=
  λ args contextVariables,
    match json.Marshal args with
    | Err err =>
        Return {| Result.Success := false;
                  Result.Data := json.Nil;
                  Result.Error :=
                    Some (Errorf "error marshaling arguments: " err);
                  Result.Agent := nil |}
    | Ok argsBytes =>
        match json.Unmarshal argsBytes (zero : I) with
        | Err err =>
            Return {| Result.Success := false;
                      Result.Data := json.Nil;
                      Result.Error :=
                        Some (Errorf "error unmarshaling arguments: " err);
                      Result.Agent := nil |}
        | Ok typedArgs => executor typedArgs contextVariables
        end
    end.

(** [NewAgentFunction]; [ρ] is the order in which the runtime ranges over
    [schemaMap]. *)
Definition NewAgentFunction {I} `{Zero I, reflect.Typed I, json.Unmarshaler I}
  (ρ : list nat) (name description : string)
  (executor : AgentFunctionExecutor I)
  : outcome (result (AgentFunction.t (gmap string json.any))) :=
  let reflector :=
    {| jsonschema.RequiredFromJSONSchemaTags := true;
       jsonschema.AllowAdditionalProperties := false;
       jsonschema.DoNotReference := true |} in
  let schema := jsonschema.Reflect reflector (zero : I) in
  match json.MarshalIndent schema "" "  " with
  | Err err => Return (Err (Errorf "Error generating schema: " err))
  | Ok schemaBytes =>
      match json.Unmarshal schemaBytes (zero : gmap string json.any) with
      | Err err => Return (Err (Errorf "Error unmarshaling schema: " err))
      | Ok schemaMap =>
          match NewAgentFunction_loop schemaMap (range ρ schemaMap) ∅ with
          | Panic p => Panic p
          | Return params =>
              Return (Ok {| AgentFunction.Name := name;
                            AgentFunction.Description := description;
                            AgentFunction.params := params;
                            AgentFunction.executor :=
                              NewAgentFunction_executor executor |})
          end
      end
  end.

(** Modelled from the spec: [NewMemoryStore], whose body is not in
    [agent.go]: a new store of the given capacity ("bounded append log [...]
    capacity N, chosen at construction"), empty. *)
Definition NewMemoryStore (capacity : Z) : go ptr :=
  new_store {| MemoryStore.capacity := capacity; MemoryStore.log := [] |}.

(** [NewAgent] *)
Definition NewAgent (name model : string) (provider : llm.LLMProvider)
  : go ptr :=
  memory ← NewMemoryStore 100;
  new_agent {| Agent.Name := name;
               Agent.Model := model;
               Agent.Provider := provider;
               Agent.Config := nil;
               Agent.Instructions := "";
               Agent.InstructionsFunc := None;
               Agent.Functions := [];
               Agent.Memory := memory;
               Agent.ParallelToolCalls := false |}.

(** [func (a *Agent) WithFunctions] *)
Definition WithFunctions (a : ptr)
  (functions : list (AgentFunction.t (gmap string json.any))) : go ptr :=
  old ← load a Agent.Functions;
  _ ← assign a (Agent.set_Functions (old ++ functions));
  mret a.

(** [func (a *Agent) WithConfig] *)
Definition WithConfig (a : ptr) (config : ptr) : go ptr :=
  _ ← assign a (Agent.set_Config config);
  mret a.

(** [func (a *Agent) WithInstructions] *)
Definition WithInstructions (a : ptr) (instructions : string) : go ptr :=
  _ ← assign a (Agent.set_Instructions instructions);
  mret a.

(** [func (a *Agent) WithInstructionsFunc] *)
Definition WithInstructionsFunc (a : ptr)
  (f : option (ContextVariables → string)) : go ptr :=
  _ ← assign a (Agent.set_InstructionsFunc f);
  mret a.

(** [func (a *Agent) WithParallelToolCalls] *)
Definition WithParallelToolCalls (a : ptr) (enabled : bool) : go ptr :=
  _ ← assign a (Agent.set_ParallelToolCalls enabled);
  mret a.

(** ** The argument types of [swarm_test.go] *)

(** How [Unmarshal] fills a struct. *)
Module decoder.
Import json.

(** ASCII case folding: [Unmarshal] matches a key to a field name without
    regard to case. *)
Definition fold_ascii (c : ascii) : ascii :=
  let n := nat_of_ascii c in
  if decide (65 ≤ n ≤ 90)%nat then ascii_of_nat (n + 32) else c.

Fixpoint fold_case (s : string) : string :=
  match s with
  | EmptyString => EmptyString
  | String c s' => String (fold_ascii c) (fold_case s')
  end.

Definition equalFold (s t : string) : bool :=
  bool_decide (fold_case s = fold_case t).

(** A JSON value stored into a field of type [int] (64 bits).  A number out
    of range is reported with its literal, written here in decimal. *)
Definition into_int (field : string) (t : text) (old : Z) : result Z :=
  match t with
  | TNum n =>
      if decide (- 2 ^ 63 ≤ n < 2 ^ 63)%Z then Ok n
      else Err ("json: cannot unmarshal number " +:+ pretty n +:+
                " into Go struct field " +:+ field +:+ " of type int")
  | TNull => Ok old
  | _ => Err ("json: cannot unmarshal " +:+ describe t +:+
              " into Go struct field " +:+ field +:+ " of type int")
  end.

(** A JSON text stored into a struct whose one field, of type [int], has the
    JSON name [key]: the members are taken in order, members of another name
    are skipped, [null] leaves the struct as it is. *)
Definition into_struct {T} (type key : string) (get : T → Z) (set : Z → T)
  (t : text) (v : T) : result T :=
  match t with
  | TObj ms =>
      foldl (λ acc kv,
               v' ← acc;
               if equalFold kv.1 key
               then set <$> into_int (type +:+ "." +:+ key) kv.2 (get v')
               else Ok v')
            (Ok v) ms
  | TNull => Ok v
  | _ => Err ("json: cannot unmarshal " +:+ describe t +:+
              " into Go value of type swarmgo." +:+ type)
  end.

End decoder.

(** [type TestFunctionArgs struct { Arg1 int `json:"arg1"` }] *)
Module TestFunctionArgs.

Record t : Type := { Arg1 : Z }.

#[global] Instance zero_t : Zero t := {| Arg1 := 0 |}.

#[global] Instance typed_t : reflect.Typed t :=
  λ _, {| reflect.TypeName := "TestFunctionArgs";
          reflect.TypeID :=
            "https://github.com/prathyushnallamothu/swarmgo/test-function-args";
          reflect.TypeShape :=
            reflect.StructOf
              [ {| reflect.Name := "Arg1";
                   reflect.Type_ := reflect.Int;
                   reflect.jsonName := "arg1";
                   reflect.jsonOmitempty := false;
                   reflect.tagRequired := false;
                   reflect.tagDescription := "" |} ] |}.

#[global] Instance unmarshal_t : json.Unmarshaler t :=
  decoder.into_struct "TestFunctionArgs" "arg1" Arg1 Build_t.

End TestFunctionArgs.

(** [type TestFunctionArgsWithRequired struct { Arg1 int `json:"arg1"
    jsonschema:"required,description=This is a required argument"` }] *)
Module TestFunctionArgsWithRequired.

Record t : Type := { Arg1 : Z }.

#[global] Instance zero_t : Zero t := {| Arg1 := 0 |}.

#[global] Instance typed_t : reflect.Typed t :=
  λ _, {| reflect.TypeName := "TestFunctionArgsWithRequired";
          reflect.TypeID :=
            "https://github.com/prathyushnallamothu/swarmgo/test-function-args-with-required";
          reflect.TypeShape :=
            reflect.StructOf
              [ {| reflect.Name := "Arg1";
                   reflect.Type_ := reflect.Int;
                   reflect.jsonName := "arg1";
                   reflect.jsonOmitempty := false;
                   reflect.tagRequired := true;
                   reflect.tagDescription := "This is a required argument" |} ] |}.

#[global] Instance unmarshal_t : json.Unmarshaler t :=
  decoder.into_struct "TestFunctionArgsWithRequired" "arg1" Arg1 Build_t.

End TestFunctionArgsWithRequired.

(** 64-bit signed addition. *)
Definition add_int (x y : Z) : Z :=
  ((x + y + 2 ^ 63) mod 2 ^ 64 - 2 ^ 63)%Z.

(** The executors the tests register. *)
Definition test_executor {I} : AgentFunctionExecutor I :=
  λ _ _, Return {| Result.Success := true;
                   Result.Data := json.Str "Function executed successfully";
                   Result.Error := None;
                   Result.Agent := nil |}.

Definition increment_executor : AgentFunctionExecutor TestFunctionArgs.t :=
  λ args _, Return {| Result.Success := true;
                      Result.Data :=
                        json.Number (add_int (TestFunctionArgs.Arg1 args) 1);
                      Result.Error := None;
                      Result.Agent := nil |}.

(** A user function that panics. *)
Definition panicking_executor {I} : AgentFunctionExecutor I :=
  λ _ _, Panic "executor called".

(** The [params] of the tool [NewAgentFunction] returns, if it returns one. *)
Definition params_of {I}
  (o : outcome (result (AgentFunction.t I))) : option (gmap string json.any) :=
  match o with
  | Return (Ok af) => Some (AgentFunction.params af)
  | _ => None
  end.

(** * The notions the statements use *)

(** A key the loop skips: its first byte is ['$']. *)
Definition is_meta (k : string) : Prop := String.get 0 k = Some "$"%char.

#[global] Instance is_meta_dec k : Decision (is_meta k).
Proof. unfold is_meta. apply _. Defined.

(** The configuration [NewAgentFunction] reflects with. *)
Definition reflector : jsonschema.Reflector :=
  {| jsonschema.RequiredFromJSONSchemaTags := true;
     jsonschema.AllowAdditionalProperties := false;
     jsonschema.DoNotReference := true |}.

(** [schemaMap] as [NewAgentFunction] computes it: the reflected schema,
    marshalled and unmarshalled into a map. *)
Definition schemaMap_of (I : Type) `{Zero I, reflect.Typed I}
  : result (gmap string json.any) :=
  match json.MarshalIndent (jsonschema.Reflect reflector (zero : I)) "" "  " with
  | Err err => Err err
  | Ok schemaBytes => json.Unmarshal schemaBytes (zero : gmap string json.any)
  end.

(** The members of an unmarshalled object. *)
Definition object_map (m0 : gmap string json.any)
  (ms : list (string * json.text)) : gmap string json.any :=
  foldl (λ m kv, <[kv.1 := json.decode kv.2]> m) m0 ms.

(** The keys a marshalled schema can have. *)
Definition schema_keys : list string :=
  ["$schema"; "$id"; "$ref"; "$defs"; "properties"; "additionalProperties";
   "type"; "required"; "description"].

(** The names of the tools of a registry, in order. *)
Definition names (fs : list (AgentFunction.t (gmap string json.any)))
  : list string :=
  AgentFunction.Name <$> fs.

(** A store with one agent, the one [TestHandleToolCall] builds. *)
Definition test_agent : Agent.t :=
  {| Agent.Name := "TestAgent";
     Agent.Model := "test-model";
     Agent.Provider := "";
     Agent.Config := nil;
     Agent.Instructions := "";
     Agent.InstructionsFunc := None;
     Agent.Functions := [];
     Agent.Memory := nil;
     Agent.ParallelToolCalls := false |}.

Definition test_heap : heap :=
  {| agents := {[ 1%positive := test_agent ]}; stores := ∅ |}.

(** The tool of the tests, as [NewAgentFunction] builds it. *)
Definition test_function : AgentFunction.t (gmap string json.any) :=
  {| AgentFunction.Name := "testFunction";
     AgentFunction.Description := "A test function";
     AgentFunction.params :=
       default ∅ (params_of (NewAgentFunction (I := TestFunctionArgs.t) []
                               "testFunction" "A test function"
                               increment_executor));
     AgentFunction.executor := NewAgentFunction_executor increment_executor |}.

(** C5, as it is stated: every call of [WithFunctions] on an agent whose
    tools have pairwise distinct names leaves an agent whose tools have
    pairwise distinct names. *)
Definition WithFunctions_keeps_names_distinct : Prop :=
  ∀ (h h' : heap) (l : loc) (ag : Agent.t)
    (functions : list (AgentFunction.t (gmap string json.any))),
    agents h !! l = Some ag →
    NoDup (names (Agent.Functions ag)) →
    WithFunctions (Some l) functions h = Return (Some l, h') →
    ∃ ag', agents h' !! l = Some ag' ∧ NoDup (names (Agent.Functions ag')).

(** The name under which a field appears in the schema: its JSON name, or
    its Go name when the tag gives none. *)
Definition propertyName (f : reflect.StructField) : string :=
  if decide (reflect.jsonName f = "") then reflect.Name f
  else reflect.jsonName f.

(** What [handleField] does to the properties and to the required names. *)
Definition add_property (ps : list (string * jsonschema.Schema))
  (f : reflect.StructField) : list (string * jsonschema.Schema) :=
  if decide (propertyName f = "") then ps
  else jsonschema.Set_ (propertyName f) (jsonschema.property f) ps.

Definition add_required (rs : list string) (f : reflect.StructField)
  : list string :=
  if decide (propertyName f = "") then rs
  else if reflect.tagRequired f
       then jsonschema.appendUniqueString rs (propertyName f)
       else rs.

(** The last field declared under a name. *)
Definition last_named (k : string) (fields : list reflect.StructField)
  : option reflect.StructField :=
  foldl (λ acc f, if decide (propertyName f = k) then Some f else acc)
        None fields.

(** A member list as [Marshal] writes an ordered map of schemas. *)
Definition marshal_members (ps : list (string * jsonschema.Schema))
  : list (string * json.text) :=
  map (λ kv, (kv.1, jsonschema.marshalSchema kv.2)) ps.


(** The schema map of a struct type with identifier [id], properties [ps]
    and required names [rs]. *)
Definition struct_schemaMap (id : string)
  (ps : list (string * jsonschema.Schema)) (rs : list string)
  : gmap string json.any :=
  object_map ∅
    (("$schema", json.TStr jsonschema.Version_) ::
     jsonschema.omitempty "$id" id ++
     [("properties", json.TObj (marshal_members ps));
      ("additionalProperties", json.TBool false);
      ("type", json.TStr "object")] ++
     match rs with
     | [] => []
     | _ => [("required", json.TArr (map json.TStr rs))]
     end).

(** The ["required"] entry of the parameters: none for no name. *)
Definition required_entry (rs : list string) : option json.any :=
  match rs with
  | [] => None
  | _ => Some (json.Slice (json.Str <$> rs))
  end.


(** * Properties *)

(** ** The order of iteration *)

Lemma shuffle_Permutation {A} (ρ : list nat) (l : list A) : shuffle ρ l ≡ₚ l.
Proof.
  revert l. induction ρ as [|n ρ IH]; intros l; simpl; [done|].
  destruct (l !! (n mod length l)) as [x|] eqn:Hx; [|done].
  rewrite IH. symmetry. by apply delete_Permutation.
Qed.

Lemma range_Permutation {V} (ρ : list nat) (m : gmap string V) :
  range ρ m ≡ₚ (map_to_list m).*1.
Proof. apply shuffle_Permutation. Qed.

Lemma elem_of_range {V} (ρ : list nat) (m : gmap string V) (k : string) :
  k ∈ range ρ m ↔ k ∈ dom m.
Proof.
  rewrite range_Permutation, elem_of_dom, list_elem_of_fmap. split.
  - intros [[k' v] [-> Hkv]]. apply elem_of_map_to_list in Hkv. eauto.
  - intros [v Hv]. exists (k, v). split; [done|].
    by apply elem_of_map_to_list.
Qed.

(** Every order is one the model can pick. *)
Lemma shuffle_complete {A} (l l' : list A) :
  l' ≡ₚ l → ∃ ρ, shuffle ρ l = l'.
Proof.
  revert l. induction l' as [|x l' IH]; intros l Hl.
  - apply Permutation_nil_l in Hl as ->. by exists [].
  - assert (x ∈ l) as Hx by (rewrite <-Hl; left).
    apply list_elem_of_lookup in Hx as [i Hi].
    destruct (IH (delete i l)) as [ρ Hρ].
    { pose proof (delete_Permutation _ _ _ Hi) as Hd. rewrite Hd in Hl.
      by apply Permutation_cons_inv in Hl. }
    exists (i :: ρ). simpl.
    assert (i < length l)%nat as Hlt by (by eapply lookup_lt_Some).
    rewrite Nat.mod_small by done. by rewrite Hi, Hρ.
Qed.

(** ** The loop that strips the metadata keys *)

Lemma get_0_None (k : string) : String.get 0 k = None ↔ k = "".
Proof. destruct k; simpl; split; congruence. Qed.

(** On keys that are all non-empty the loop returns, and what it returns is
    read off key by key. *)
Lemma loop_returns (m : gmap string json.any) (keys : list string)
  (params : gmap string json.any) :
  (∀ k, k ∈ keys → k ≠ "") →
  ∃ params',
    NewAgentFunction_loop m keys params = Return params' ∧
    ∀ k, params' !! k =
         if decide (k ∈ keys ∧ ¬ is_meta k)
         then Some (default json.Nil (m !! k))
         else params !! k.
Proof.
  revert params.
  induction keys as [|k0 keys IH]; intros params Hne;
    cbn [NewAgentFunction_loop].
  - exists params. split; [done|]. intros k.
    destruct (decide _) as [[Hk _]|]; [|done]. by apply elem_of_nil in Hk.
  - destruct (String.get 0 k0) as [c|] eqn:Hc.
    2:{ apply get_0_None in Hc. destruct (Hne k0); [left|done]. }
    assert (∀ k, k ∈ keys → k ≠ "") as Hne' by (intros k ?; apply Hne; by right).
    destruct (decide (c = "$"%char)) as [->|Hnc].
    + destruct (IH params Hne') as (params' & -> & Hl).
      exists params'. split; [done|]. intros k. rewrite Hl.
      apply decide_ext. rewrite elem_of_cons. split; [tauto|].
      intros [[->|Hk] Hm]; [by destruct Hm|done].
    + destruct (IH (<[k0 := default json.Nil (m !! k0)]> params) Hne')
        as (params' & -> & Hl).
      exists params'. split; [done|]. intros k. rewrite Hl.
      assert (¬ is_meta k0) as Hm0 by (unfold is_meta; rewrite Hc; congruence).
      destruct (decide (k = k0)) as [->|Hkk].
      * rewrite lookup_insert_eq.
        destruct (decide (k0 ∈ keys ∧ _));
          destruct (decide (k0 ∈ k0 :: keys ∧ _)) as [|Hn]; try done;
          destruct Hn; (split; [left|done]).
      * rewrite lookup_insert_ne by done.
        apply decide_ext. rewrite elem_of_cons. tauto.
Qed.

(** An empty key makes the loop panic, wherever it comes in the order. *)
Lemma loop_panics (m : gmap string json.any) (keys : list string)
  (params : gmap string json.any) :
  "" ∈ keys →
  NewAgentFunction_loop m keys params = Panic index_out_of_range.
Proof.
  revert params. induction keys as [|k0 keys IH]; intros params Hin; simpl.
  - by apply elem_of_nil in Hin.
  - destruct (String.get 0 k0) as [c|] eqn:Hc; [|done].
    apply elem_of_cons in Hin as [<-|Hin]; [done|].
    case_decide; by apply IH.
Qed.

(** The outcome of the loop does not depend on the order of the keys. *)
Lemma loop_order (m : gmap string json.any) (keys keys' : list string)
  (params : gmap string json.any) :
  keys ≡ₚ keys' →
  NewAgentFunction_loop m keys params = NewAgentFunction_loop m keys' params.
Proof.
  intros Hp. destruct (decide ("" ∈ keys)) as [Hin|Hnin].
  - rewrite !loop_panics; [done| |done]. by rewrite <-Hp.
  - destruct (loop_returns m keys params) as (p1 & -> & H1).
    { by intros k Hk ->. }
    destruct (loop_returns m keys' params) as (p2 & -> & H2).
    { intros k Hk ->. apply Hnin. by rewrite Hp. }
    f_equal. apply map_eq. intros k. rewrite H1, H2.
    apply decide_ext. by rewrite Hp.
Qed.

(** Ranging over a map with non-empty keys keeps exactly the entries whose
    key is not a metadata key. *)
Lemma loop_filter (ρ : list nat) (m : gmap string json.any) :
  (∀ k, k ∈ dom m → k ≠ "") →
  NewAgentFunction_loop m (range ρ m) ∅ =
    Return (filter (λ kv, ¬ is_meta kv.1) m).
Proof.
  intros Hne. destruct (loop_returns m (range ρ m) ∅) as (p & -> & Hp).
  { intros k Hk. apply Hne. by apply elem_of_range in Hk. }
  f_equal. apply map_eq. intros k. rewrite Hp. symmetry.
  destruct (decide _) as [[Hk Hm]|Hk].
  - apply elem_of_range, elem_of_dom in Hk as [v Hv].
    rewrite Hv. simpl. by apply map_lookup_filter_Some.
  - rewrite lookup_empty. apply map_lookup_filter_None.
    destruct (m !! k) as [v|] eqn:Hv; [right|by left].
    intros v' [= <-] Hm. apply Hk. split; [|done].
    apply elem_of_range, elem_of_dom. eauto.
Qed.

(** ** The schema map [NewAgentFunction] ranges over *)

Lemma object_map_snoc m0 ms kv :
  object_map m0 (ms ++ [kv]) = <[kv.1 := json.decode kv.2]> (object_map m0 ms).
Proof. unfold object_map. by rewrite foldl_app. Qed.

Lemma dom_object_map m0 ms k :
  k ∈ dom (object_map m0 ms) ↔ k ∈ dom m0 ∨ k ∈ ms.*1.
Proof.
  induction ms as [|kv ms IH] using rev_ind.
  - simpl. rewrite elem_of_nil. tauto.
  - rewrite object_map_snoc, dom_insert, fmap_app, elem_of_union,
      elem_of_singleton, elem_of_app, IH. simpl.
    rewrite list_elem_of_singleton. tauto.
Qed.



Lemma omitempty_keys key value :
  key ∈ schema_keys →
  Forall (λ kv, kv.1 ∈ schema_keys) (jsonschema.omitempty key value).
Proof.
  intros Hk. unfold jsonschema.omitempty.
  case_decide; [apply Forall_nil_2|by apply Forall_singleton].
Qed.

Lemma isEmpty_Version s :
  jsonschema.Version s ≠ "" → jsonschema.isEmpty s = false.
Proof. destruct s as [[|??] ?????????]; simpl; [done|]. done. Qed.

(** A schema that is not a boolean and has a version is marshalled as an
    object whose keys are schema keywords. *)
Lemma marshalSchema_object (s : jsonschema.Schema) :
  jsonschema.boolean s = None →
  jsonschema.Version s ≠ "" →
  ∃ ms, jsonschema.marshalSchema s = json.TObj ms ∧
        Forall (λ kv, kv.1 ∈ schema_keys) ms.
Proof.
  intros Hb Hv. pose proof (isEmpty_Version s Hv) as He.
  destruct s as [version id ref defs props addl type required descr b].
  simpl in Hb. subst b. cbn [jsonschema.marshalSchema]. rewrite He.
  eexists. split; [done|].
  assert (∀ k, k ∈ schema_keys ↔
               k = "$schema" ∨ k = "$id" ∨ k = "$ref" ∨ k = "$defs" ∨
               k = "properties" ∨ k = "additionalProperties" ∨ k = "type" ∨
               k = "required" ∨ k = "description") as Hkeys.
  { intros k. unfold schema_keys. rewrite !elem_of_cons, elem_of_nil. tauto. }
  repeat apply Forall_app_2;
    try (apply omitempty_keys; apply Hkeys; tauto).
  - destruct defs; [apply Forall_nil_2|];
      apply Forall_singleton, Hkeys; simpl; tauto.
  - destruct props; [|apply Forall_nil_2];
      apply Forall_singleton, Hkeys; simpl; tauto.
  - destruct addl; [|apply Forall_nil_2];
      apply Forall_singleton, Hkeys; simpl; tauto.
  - destruct required; [apply Forall_nil_2|];
      apply Forall_singleton, Hkeys; simpl; tauto.
Qed.

Lemma schema_keys_nonempty k : k ∈ schema_keys → k ≠ "".
Proof.
  intros Hk ->. unfold schema_keys in Hk.
  repeat (apply elem_of_cons in Hk as [Hk|Hk]; [discriminate Hk|]).
  by apply elem_of_nil in Hk.
Qed.

Lemma handleField_boolean r s f :
  jsonschema.boolean (jsonschema.handleField r s f) = jsonschema.boolean s.
Proof.
  unfold jsonschema.handleField.
  destruct (jsonschema.reflectFieldName r f) as [name required].
  by case_decide.
Qed.

Lemma reflectTypeToSchema_boolean r t :
  jsonschema.boolean (jsonschema.reflectTypeToSchema r t) = None.
Proof.
  unfold jsonschema.reflectTypeToSchema.
  destruct (reflect.TypeShape t) as [k| |fields]; [done..|].
  unfold jsonschema.reflectStruct.
  assert (∀ s, jsonschema.boolean
                 (foldl (jsonschema.handleField r) s fields) =
               jsonschema.boolean s) as ->; [|done].
  induction fields as [|f fields IH]; intros s; simpl; [done|].
  by rewrite IH, handleField_boolean.
Qed.

Lemma ReflectFromType_boolean r t :
  jsonschema.boolean (jsonschema.ReflectFromType r t) = None.
Proof.
  unfold jsonschema.ReflectFromType. cbn [jsonschema.boolean].
  destruct (_ || _); [apply reflectTypeToSchema_boolean|done].
Qed.

Lemma ReflectFromType_Version r t :
  jsonschema.Version (jsonschema.ReflectFromType r t) = jsonschema.Version_.
Proof. done. Qed.

(** The first member of a reflected schema is ["$schema"]. *)
Lemma marshalSchema_Reflect r t :
  ∃ ms, jsonschema.marshalSchema (jsonschema.ReflectFromType r t) =
          json.TObj (("$schema", json.TStr jsonschema.Version_) :: ms) ∧
        Forall (λ kv, kv.1 ∈ schema_keys) ms.
Proof.
  destruct (marshalSchema_object (jsonschema.ReflectFromType r t))
    as (ms & Hms & Hkeys).
  { apply ReflectFromType_boolean. }
  { by rewrite ReflectFromType_Version. }
  pose proof (ReflectFromType_boolean r t) as Hb.
  destruct (jsonschema.ReflectFromType r t)
    as [version id ref defs props addl type required descr b] eqn:Hs.
  pose proof (ReflectFromType_Version r t) as Hv. rewrite Hs in Hv.
  simpl in Hv, Hb. subst version b.
  cbn [jsonschema.marshalSchema] in Hms.
  change (jsonschema.isEmpty _) with false in Hms.
  change (jsonschema.omitempty "$schema" jsonschema.Version_)
    with [("$schema", json.TStr jsonschema.Version_)] in Hms.
  simpl in Hms. injection Hms as <-. eexists. split; [done|].
  by apply Forall_cons in Hkeys as [_ ?].
Qed.

(** For every argument type the schema map exists, has the key ["$schema"],
    and has no empty key. *)
Lemma schemaMap_of_Ok (I : Type) `{Zero I, reflect.Typed I} :
  ∃ m, schemaMap_of I = Ok m ∧
       is_meta "$schema" ∧ "$schema" ∈ dom m ∧
       ∀ k, k ∈ dom m → k ≠ "".
Proof.
  unfold schemaMap_of, json.MarshalIndent, json.Marshal, json.marshalJSON,
    jsonschema.marshal_schema, jsonschema.Reflect.
  destruct (marshalSchema_Reflect reflector (reflect.TypeOf (zero : I)))
    as (ms & -> & Hkeys).
  eexists. split; [done|]. split; [done|].
  change (foldl _ _ ?l) with (object_map ∅ l). split.
  - apply dom_object_map. right. left.
  - intros k [Hk|Hk]%dom_object_map; [by rewrite dom_empty in Hk|].
    apply schema_keys_nonempty. rewrite fmap_cons in Hk.
    apply elem_of_cons in Hk as [->|Hk]; [left|].
    apply list_elem_of_fmap in Hk as (kv & -> & Hkv).
    by eapply Forall_forall in Hkeys.
Qed.

(** [NewAgentFunction] in terms of the schema map and the loop. *)
Lemma NewAgentFunction_unfold {I} `{Zero I, reflect.Typed I, json.Unmarshaler I}
  ρ name description (executor : AgentFunctionExecutor I) :
  NewAgentFunction ρ name description executor =
    match schemaMap_of I with
    | Err err =>
        Return (Err (Errorf (match json.MarshalIndent
                                     (jsonschema.Reflect reflector (zero : I))
                                     "" "  " with
                             | Err _ => "Error generating schema: "
                             | Ok _ => "Error unmarshaling schema: "
                             end) err))
    | Ok schemaMap =>
        match NewAgentFunction_loop schemaMap (range ρ schemaMap) ∅ with
        | Panic p => Panic p
        | Return params =>
            Return (Ok {| AgentFunction.Name := name;
                          AgentFunction.Description := description;
                          AgentFunction.params := params;
                          AgentFunction.executor :=
                            NewAgentFunction_executor executor |})
        end
    end.
Proof.
  unfold NewAgentFunction, schemaMap_of. fold reflector.
  destruct (json.MarshalIndent _ _ _) as [schemaBytes|err]; [|done].
  by destruct (json.Unmarshal schemaBytes _).
Qed.

(** [NewAgentFunction] returns a tool for every argument type and every
    order of iteration; the parameters are the schema map without its
    metadata keys. *)
Lemma NewAgentFunction_returns {I} `{Zero I, reflect.Typed I, json.Unmarshaler I}
  ρ name description (executor : AgentFunctionExecutor I) :
  ∃ m, schemaMap_of I = Ok m ∧
       NewAgentFunction ρ name description executor =
         Return (Ok {| AgentFunction.Name := name;
                       AgentFunction.Description := description;
                       AgentFunction.params :=
                         filter (λ kv, ¬ is_meta kv.1) m;
                       AgentFunction.executor :=
                         NewAgentFunction_executor executor |}).
Proof.
  destruct (schemaMap_of_Ok I) as (m & Hm & _ & _ & Hne).
  exists m. split; [done|].
  by rewrite NewAgentFunction_unfold, Hm, loop_filter.
Qed.

(** ** The parameters of a tool carry no metadata key *)

(** C4. For every argument type, [NewAgentFunction] returns a tool whose
    parameter map has no key beginning with ['$'], and in which every key of
    the reflected schema map that does not begin with ['$'] is kept with the
    value it has there.  The schema map itself does have such a key,
    ["$schema"]. *)
Theorem NewAgentFunction_strips_metadata
  {I} `{Zero I, reflect.Typed I, json.Unmarshaler I}
  (ρ : list nat) (name description : string)
  (executor : AgentFunctionExecutor I) :
  ∃ schemaMap af,
    schemaMap_of I = Ok schemaMap ∧
    NewAgentFunction ρ name description executor = Return (Ok af) ∧
    "$schema" ∈ dom schemaMap ∧
    (∀ k, k ∈ dom (AgentFunction.params af) →
          String.get 0 k ≠ Some "$"%char) ∧
    (∀ k v, schemaMap !! k = Some v →
            String.get 0 k ≠ Some "$"%char →
            AgentFunction.params af !! k = Some v).
Proof.
  destruct (NewAgentFunction_returns ρ name description executor)
    as (m & Hm & ->).
  destruct (schemaMap_of_Ok I) as (m' & Hm' & _ & Hschema & _).
  rewrite Hm in Hm'. injection Hm' as <-.
  exists m. eexists. split; [done|]. split; [done|]. split; [done|].
  cbn [AgentFunction.params]. split.
  - intros k [v Hv]%elem_of_dom.
    by apply map_lookup_filter_Some in Hv as [_ Hk].
  - intros k v Hv Hk. by apply map_lookup_filter_Some.
Qed.

(** ** Schema generation is deterministic *)

(** C7. Two calls of [NewAgentFunction] for the same argument type, name and
    description return tools with equal parameter maps, whatever order the
    runtime iterates in and whatever the executors; and the definitions
    [FunctionToDefinition] makes of the two tools are equal. *)
Theorem NewAgentFunction_deterministic
  {I} `{Zero I, reflect.Typed I, json.Unmarshaler I}
  (ρ1 ρ2 : list nat) (name description : string)
  (executor1 executor2 : AgentFunctionExecutor I) :
  ∃ af1 af2,
    NewAgentFunction ρ1 name description executor1 = Return (Ok af1) ∧
    NewAgentFunction ρ2 name description executor2 = Return (Ok af2) ∧
    AgentFunction.params af1 = AgentFunction.params af2 ∧
    FunctionToDefinition af1 = FunctionToDefinition af2.
Proof.
  destruct (NewAgentFunction_returns ρ1 name description executor1)
    as (m1 & Hm1 & ->).
  destruct (NewAgentFunction_returns ρ2 name description executor2)
    as (m2 & Hm2 & ->).
  rewrite Hm1 in Hm2. injection Hm2 as <-.
  do 2 eexists. by repeat split.
Qed.

(** ** Indexing the first byte of a key *)

(** C9. When the schema map of an argument type has no empty key, every key
    the loop visits has a first byte, and [NewAgentFunction] returns without
    panicking. *)
Theorem NewAgentFunction_index_safe
  {I} `{Zero I, reflect.Typed I, json.Unmarshaler I}
  (ρ : list nat) (name description : string)
  (executor : AgentFunctionExecutor I) (schemaMap : gmap string json.any) :
  schemaMap_of I = Ok schemaMap →
  (∀ k, k ∈ dom schemaMap → k ≠ "") →
  (∀ k, k ∈ range ρ schemaMap → is_Some (String.get 0 k)) ∧
  ∃ af, NewAgentFunction ρ name description executor = Return (Ok af).
Proof.
  intros Hm Hne. split.
  - intros k Hk%elem_of_range. apply Hne in Hk.
    destruct (String.get 0 k) eqn:Hget; [by eexists|].
    by apply get_0_None in Hget.
  - rewrite NewAgentFunction_unfold, Hm, loop_filter by done. by eexists.
Qed.

Lemma NewAgentFunction_index_safe_witness :
  ∃ af, NewAgentFunction (I := TestFunctionArgs.t) [2; 0]%nat "testFunction"
          "A test function" test_executor = Return (Ok af).
Proof.
  eapply (NewAgentFunction_index_safe (I := TestFunctionArgs.t) _ _ _ _
            (object_map ∅
               [("$schema", json.TStr jsonschema.Version_);
                ("$id", json.TStr "https://github.com/prathyushnallamothu/swarmgo/test-function-args");
                ("properties",
                 json.TObj [("arg1", json.TObj [("type", json.TStr "integer")])]);
                ("additionalProperties", json.TBool false);
                ("type", json.TStr "object")])).
  - reflexivity.
  - intros k Hk ->. revert Hk. apply not_elem_of_dom.
    vm_compute. reflexivity.
Defined.

(** ** The schema of a struct *)

Lemma reflectFieldName_reflector f :
  jsonschema.reflectFieldName reflector f = (propertyName f, reflect.tagRequired f).
Proof. done. Qed.

Lemma handleField_foldl fields ps rs :
  foldl (jsonschema.handleField reflector)
        (jsonschema.mkSchema "" "" "" [] (Some ps)
           (Some jsonschema.FalseSchema) "object" rs "" None)
        fields =
    jsonschema.mkSchema "" "" "" [] (Some (foldl add_property ps fields))
      (Some jsonschema.FalseSchema) "object" (foldl add_required rs fields)
      "" None.
Proof.
  revert ps rs. induction fields as [|f fields IH]; intros ps rs; [done|].
  cbn [foldl]. unfold jsonschema.handleField at 2.
  rewrite reflectFieldName_reflector. cbn [jsonschema.Properties
    jsonschema.Required jsonschema.Version jsonschema.ID jsonschema.Ref
    jsonschema.Definitions jsonschema.AdditionalProperties jsonschema.Type_
    jsonschema.Description jsonschema.boolean default].
  unfold add_property at 2, add_required at 2.
  destruct (decide (propertyName f = "")); apply IH.
Qed.

Lemma reflectStruct_fields fields :
  jsonschema.reflectStruct reflector fields =
    jsonschema.mkSchema "" "" "" [] (Some (foldl add_property [] fields))
      (Some jsonschema.FalseSchema) "object" (foldl add_required [] fields)
      "" None.
Proof. apply handleField_foldl. Qed.

Lemma last_named_snoc k fields f :
  last_named k (fields ++ [f]) =
    if decide (propertyName f = k) then Some f else last_named k fields.
Proof. unfold last_named. by rewrite foldl_app. Qed.

Lemma last_named_Some k fields f :
  last_named k fields = Some f → f ∈ fields ∧ propertyName f = k.
Proof.
  induction fields as [|g fields IH] using rev_ind; [done|].
  rewrite last_named_snoc. case_decide as Hg.
  - intros [= <-]. split; [|done]. apply elem_of_app. right. left.
  - intros [Hin Hk]%IH. split; [|done]. apply elem_of_app. by left.
Qed.

Lemma last_named_None k fields :
  last_named k fields = None ↔ ∀ f, f ∈ fields → propertyName f ≠ k.
Proof.
  induction fields as [|g fields IH] using rev_ind.
  - split; [|done]. intros _ f Hf. by apply elem_of_nil in Hf.
  - rewrite last_named_snoc. case_decide as Hg.
    + split; [done|]. intros Hall. destruct (Hall g); [|done].
      apply elem_of_app. right. left.
    + rewrite IH. split.
      * intros Hall f [Hf|Hf]%elem_of_app; [by apply Hall|].
        by apply list_elem_of_singleton in Hf as ->.
      * intros Hall f Hf. apply Hall, elem_of_app. by left.
Qed.












(** The required names are those of the fields tagged [required]. *)
Lemma elem_of_appendUniqueString base value x :
  x ∈ jsonschema.appendUniqueString base value ↔ x ∈ base ∨ x = value.
Proof.
  unfold jsonschema.appendUniqueString. case_decide as Hv.
  - split; [by left|]. by intros [?| ->].
  - rewrite elem_of_app, list_elem_of_singleton. tauto.
Qed.

Lemma elem_of_required fields n :
  n ∈ foldl add_required [] fields ↔
  n ≠ "" ∧ ∃ f, f ∈ fields ∧ propertyName f = n ∧ reflect.tagRequired f = true.
Proof.
  induction fields as [|f fields IH] using rev_ind.
  - simpl. split; [by intros ?%elem_of_nil|].
    intros (_ & f & Hf%elem_of_nil & _). done.
  - rewrite foldl_app. cbn [foldl]. unfold add_required at 1.
    assert (∀ P : reflect.StructField → Prop,
              (∃ g, g ∈ (fields ++ [f])%list ∧ P g) ↔
              (∃ g, g ∈ fields ∧ P g) ∨ P f)
      as Hex.
    { intros P. split.
      - intros (g & [Hg|Hg]%elem_of_app & HP); [left; eauto|].
        apply list_elem_of_singleton in Hg as ->. by right.
      - intros [(g & Hg & HP)|HP].
        + exists g. split; [|done]. apply elem_of_app. by left.
        + exists f. split; [|done]. apply elem_of_app. right. left. }
    rewrite (Hex (λ g, propertyName g = n ∧ reflect.tagRequired g = true)).
    destruct (decide (propertyName f = "")) as [Hf|Hf].
    { rewrite IH. split; [tauto|]. intros [Hn [?|[Hfn _]]]; [done|congruence]. }
    destruct (reflect.tagRequired f) eqn:Hreq.
    + rewrite elem_of_appendUniqueString, IH. split.
      * intros [[? ?]| ->]; [tauto|]. split; [done|]. by right.
      * intros [Hn [?|[<- _]]]; [left|right]; done.
    + rewrite IH. split; [tauto|]. intros [Hn [?|[_ ?]]]; done.
Qed.

(** The array of strings [Unmarshal] makes of the required names. *)
Lemma decode_required rs :
  json.decode (json.TArr (map json.TStr rs)) = json.Slice (json.Str <$> rs).
Proof. cbn [json.decode]. f_equal. by rewrite <-list_fmap_compose. Qed.

Lemma schemaMap_of_struct (I : Type) `{Zero I, reflect.Typed I} fields :
  reflect.TypeShape (reflect.TypeOf (zero : I)) = reflect.StructOf fields →
  schemaMap_of I =
    Ok (struct_schemaMap (reflect.TypeID (reflect.TypeOf (zero : I)))
          (foldl add_property [] fields) (foldl add_required [] fields)).
Proof.
  intros Hshape.
  unfold schemaMap_of, json.MarshalIndent, json.Marshal, json.marshalJSON,
    jsonschema.marshal_schema, jsonschema.Reflect, jsonschema.ReflectFromType,
    jsonschema.reflectTypeToSchema.
  rewrite Hshape, reflectStruct_fields. unfold struct_schemaMap.
  destruct (foldl add_required [] fields); reflexivity.
Qed.

Ltac lookup_inserts :=
  repeat (rewrite lookup_insert_eq
          || (rewrite lookup_insert_ne by discriminate)
          || rewrite lookup_empty).

Lemma struct_schemaMap_lookup id ps rs :
  struct_schemaMap id ps rs !! "type" = Some (json.Str "object") ∧
  struct_schemaMap id ps rs !! "additionalProperties" =
    Some (json.Bool false) ∧
  struct_schemaMap id ps rs !! "properties" =
    Some (json.Map (object_map ∅ (marshal_members ps))) ∧
  struct_schemaMap id ps rs !! "required" = required_entry rs.
Proof.
  unfold struct_schemaMap, jsonschema.omitempty, required_entry.
  destruct (decide (id = "")); destruct rs as [|r rs];
    cbn [app object_map foldl fst snd];
    repeat split; lookup_inserts; try done;
    by rewrite decode_required.
Qed.

(** A key that is not a metadata key is looked up in the schema map. *)
Lemma lookup_filter_not_meta (m : gmap string json.any) (k : string) :
  ¬ is_meta k → filter (λ kv, ¬ is_meta kv.1) m !! k = m !! k.
Proof.
  intros Hk. destruct (m !! k) as [v|] eqn:Hv.
  - by apply map_lookup_filter_Some.
  - apply map_lookup_filter_None. by left.
Qed.







(** The schemas [swarm_test.go] expects, for two orders of iteration, and the
    schema of the map type [TestRun] registers its tool with. *)
Example TestFunctionToDefinitionBasic :
  params_of (NewAgentFunction (I := TestFunctionArgs.t) [] "testFunction"
               "A test function" test_executor) =
    Some (<[ "properties" :=
               json.Map {[ "arg1" :=
                             json.Map {[ "type" := json.Str "integer" ]} ]} ]>
            (<[ "type" := json.Str "object" ]>
               {[ "additionalProperties" := json.Bool false ]})).
Proof. vm_compute. reflexivity. Qed.

Example TestFunctionToDefinitionWithRequired :
  params_of (NewAgentFunction (I := TestFunctionArgsWithRequired.t)
               [4; 0; 2]%nat "testFunction" "A test function" test_executor) =
    Some (<[ "properties" :=
               json.Map
                 {[ "arg1" :=
                      json.Map
                        (<[ "type" := json.Str "integer" ]>
                           {[ "description" :=
                                json.Str "This is a required argument" ]}) ]} ]>
            (<[ "type" := json.Str "object" ]>
               (<[ "required" := json.Slice [json.Str "arg1"] ]>
                  {[ "additionalProperties" := json.Bool false ]}))).
Proof. vm_compute. reflexivity. Qed.

Example TestRun_schema :
  params_of (NewAgentFunction (I := gmap string json.any) [] "testFunction"
               "A test function" test_executor) =
    Some {[ "type" := json.Str "object" ]}.
Proof. vm_compute. reflexivity. Qed.

(** ** The type-erased executor *)

(** C2. When the generic argument map marshals to [argsBytes] and
    [argsBytes] unmarshals into the typed value [typedArgs], the executor of
    the tool [NewAgentFunction] returns gives exactly what the user's
    executor gives on [typedArgs] and the same context variables. *)
Theorem NewAgentFunction_executor_round_trip
  {I} `{Zero I, reflect.Typed I, json.Unmarshaler I}
  (ρ : list nat) (name description : string)
  (executor : AgentFunctionExecutor I)
  (args contextVariables : gmap string json.any)
  (argsBytes : json.text) (typedArgs : I) :
  json.Marshal args = Ok argsBytes →
  json.Unmarshal argsBytes (zero : I) = Ok typedArgs →
  ∃ af,
    NewAgentFunction ρ name description executor = Return (Ok af) ∧
    AgentFunction.executor af args contextVariables =
      executor typedArgs contextVariables.
Proof.
  intros Hmarshal Hunmarshal.
  destruct (NewAgentFunction_returns ρ name description executor)
    as (m & _ & ->).
  eexists. split; [done|]. cbn [AgentFunction.executor].
  unfold NewAgentFunction_executor. by rewrite Hmarshal, Hunmarshal.
Qed.

Lemma NewAgentFunction_executor_round_trip_witness :
  ∃ af,
    NewAgentFunction (I := TestFunctionArgs.t) [] "testFunction"
      "A test function" increment_executor = Return (Ok af) ∧
    AgentFunction.executor af {[ "arg1" := json.Number 123 ]} ∅ =
      Return {| Result.Success := true;
                Result.Data := json.Number 124;
                Result.Error := None;
                Result.Agent := nil |}.
Proof.
  destruct (NewAgentFunction_executor_round_trip (I := TestFunctionArgs.t)
              [] "testFunction" "A test function" increment_executor
              {[ "arg1" := json.Number 123 ]} ∅
              (json.TObj [("arg1", json.TNum 123)])
              {| TestFunctionArgs.Arg1 := 123 |}) as (af & Haf & Hres).
  - vm_compute. reflexivity.
  - vm_compute. reflexivity.
  - exists af. split; [done|]. rewrite Hres. vm_compute. reflexivity.
Defined.

(** C3. When marshalling the argument map fails, or unmarshalling the bytes
    into the typed value fails, the executor of the tool returns normally a
    [Result] with [Success] false and a non-nil [Error] that names the step
    and carries the cause.  The result is the same for every user executor,
    even one that panics whenever it is called: the user executor is not
    run. *)
Theorem NewAgentFunction_executor_failure
  {I} `{Zero I, reflect.Typed I, json.Unmarshaler I}
  (ρ : list nat) (name description : string)
  (args contextVariables : gmap string json.any) :
  (∃ err, json.Marshal args = Err err) ∨
  (∃ argsBytes err,
     json.Marshal args = Ok argsBytes ∧
     json.Unmarshal argsBytes (zero : I) = Err err) →
  ∃ msg,
    ((∃ err, json.Marshal args = Err err ∧
             msg = "error marshaling arguments: " +:+ err) ∨
     (∃ argsBytes err,
        json.Marshal args = Ok argsBytes ∧
        json.Unmarshal argsBytes (zero : I) = Err err ∧
        msg = "error unmarshaling arguments: " +:+ err)) ∧
    ∀ executor : AgentFunctionExecutor I,
      ∃ af,
        NewAgentFunction ρ name description executor = Return (Ok af) ∧
        AgentFunction.executor af args contextVariables =
          Return {| Result.Success := false;
                    Result.Data := json.Nil;
                    Result.Error := Some msg;
                    Result.Agent := nil |}.
Proof.
  intros [[err Hmarshal]|(argsBytes & err & Hmarshal & Hunmarshal)].
  - exists ("error marshaling arguments: " +:+ err). split; [eauto|].
    intros executor.
    destruct (NewAgentFunction_returns ρ name description executor)
      as (m & _ & ->).
    eexists. split; [done|]. cbn [AgentFunction.executor].
    unfold NewAgentFunction_executor. by rewrite Hmarshal.
  - exists ("error unmarshaling arguments: " +:+ err).
    split; [right; eauto|]. intros executor.
    destruct (NewAgentFunction_returns ρ name description executor)
      as (m & _ & ->).
    eexists. split; [done|]. cbn [AgentFunction.executor].
    unfold NewAgentFunction_executor. by rewrite Hmarshal, Hunmarshal.
Qed.

Lemma NewAgentFunction_executor_failure_witness :
  ∃ msg af,
    NewAgentFunction (I := TestFunctionArgs.t) [] "testFunction"
      "A test function" panicking_executor = Return (Ok af) ∧
    AgentFunction.executor af {[ "arg1" := json.Str "value1" ]} ∅ =
      Return {| Result.Success := false;
                Result.Data := json.Nil;
                Result.Error := Some msg;
                Result.Agent := nil |}.
Proof.
  destruct (NewAgentFunction_executor_failure (I := TestFunctionArgs.t)
              [] "testFunction" "A test function"
              {[ "arg1" := json.Str "value1" ]} ∅) as (msg & _ & Hex).
  - right.
    exists (json.TObj [("arg1", json.TStr "value1")]),
      "json: cannot unmarshal string into Go struct field TestFunctionArgs.arg1 of type int".
    split; vm_compute; reflexivity.
  - exists msg. apply Hex.
Defined.

(** ** Agents *)

(** What an assignment through a valid pointer does. *)
Lemma assign_valid (h : heap) (l : loc) (ag : Agent.t)
  (upd : Agent.t → Agent.t) :
  agents h !! l = Some ag →
  assign (Some l) upd h =
    Return ((), {| agents := <[l := upd ag]> (agents h);
                   stores := stores h |}).
Proof. intros Hl. unfold assign. by rewrite Hl. Qed.

(** An assignment through nil panics. *)
Lemma assign_nil (h : heap) (upd : Agent.t → Agent.t) :
  assign nil upd h = Panic nil_dereference.
Proof. done. Qed.

(** A builder: one assignment, then the receiver is returned. *)
Lemma builder_valid (h : heap) (l : loc) (ag : Agent.t)
  (upd : Agent.t → Agent.t) :
  agents h !! l = Some ag →
  (assign (Some l) upd ≫= λ _, mret (Some l)) h =
    Return (Some l, {| agents := <[l := upd ag]> (agents h);
                       stores := stores h |}).
Proof.
  intros Hl. unfold mbind, go_mbind, go_bind.
  by rewrite (assign_valid _ _ ag).
Qed.

(** C8. [NewAgent] returns a pointer to a new agent with the given name,
    model and provider, whose memory is a new store of capacity 100 with an
    empty log, and whose other fields are zero: no configuration, empty
    instructions, no instructions function, no tools, parallel tool calls
    off.  Nothing else in the store changes. *)
Theorem NewAgent_fields (name model : string) (provider : llm.LLMProvider)
  (h : heap) :
  ∃ a m h',
    NewAgent name model provider h = Return (Some a, h') ∧
    (a ∉ dom (agents h)) ∧
    (m ∉ dom (stores h)) ∧
    agents h' =
      <[a := {| Agent.Name := name;
                Agent.Model := model;
                Agent.Provider := provider;
                Agent.Config := nil;
                Agent.Instructions := "";
                Agent.InstructionsFunc := None;
                Agent.Functions := [];
                Agent.Memory := Some m;
                Agent.ParallelToolCalls := false |}]> (agents h) ∧
    stores h' =
      <[m := {| MemoryStore.capacity := 100; MemoryStore.log := [] |}]>
        (stores h).
Proof.
  exists (fresh (dom (agents h))), (fresh (dom (stores h))).
  exists {| agents :=
              <[fresh (dom (agents h)) :=
                  {| Agent.Name := name;
                     Agent.Model := model;
                     Agent.Provider := provider;
                     Agent.Config := nil;
                     Agent.Instructions := "";
                     Agent.InstructionsFunc := None;
                     Agent.Functions := [];
                     Agent.Memory := Some (fresh (dom (stores h)));
                     Agent.ParallelToolCalls := false |}]> (agents h);
            stores :=
              <[fresh (dom (stores h)) :=
                  {| MemoryStore.capacity := 100; MemoryStore.log := [] |}]>
                (stores h) |}.
  split; [done|]. split; [apply is_fresh|]. split; [apply is_fresh|].
  done.
Qed.

(** C6. On a valid agent pointer [WithFunctions] returns that same pointer,
    and the tool list of the agent becomes the previous list followed by the
    arguments in order; every other field of the agent, every other agent and
    every memory store are as before. *)
Theorem WithFunctions_appends (h : heap) (l : loc) (ag : Agent.t)
  (functions : list (AgentFunction.t (gmap string json.any))) :
  agents h !! l = Some ag →
  ∃ h',
    WithFunctions (Some l) functions h = Return (Some l, h') ∧
    agents h' =
      <[l := {| Agent.Name := Agent.Name ag;
                Agent.Model := Agent.Model ag;
                Agent.Provider := Agent.Provider ag;
                Agent.Config := Agent.Config ag;
                Agent.Instructions := Agent.Instructions ag;
                Agent.InstructionsFunc := Agent.InstructionsFunc ag;
                Agent.Functions := Agent.Functions ag ++ functions;
                Agent.Memory := Agent.Memory ag;
                Agent.ParallelToolCalls := Agent.ParallelToolCalls ag |}]>
        (agents h) ∧
    stores h' = stores h.
Proof.
  intros Hl.
  exists {| agents :=
              <[l := Agent.set_Functions (Agent.Functions ag ++ functions) ag]>
                (agents h);
            stores := stores h |}.
  split; [|done].
  unfold WithFunctions, mbind, go_mbind, go_bind, load.
  rewrite Hl. by rewrite (assign_valid _ _ ag).
Qed.

Lemma WithFunctions_appends_witness :
  ∃ h',
    WithFunctions (Some 1%positive) [test_function] test_heap =
      Return (Some 1%positive, h') ∧
    Agent.Functions <$> (agents h' !! 1%positive) = Some [test_function].
Proof.
  destruct (WithFunctions_appends test_heap 1%positive test_agent
              [test_function]) as (h' & Hh' & Hagents & _).
  - reflexivity.
  - exists h'. split; [done|]. rewrite Hagents. by rewrite lookup_insert_eq.
Defined.

(** Registering the tool of the tests twice gives a registry with two tools
    named ["testFunction"]. *)
Lemma WithFunctions_duplicates_names : ¬ WithFunctions_keeps_names_distinct.
Proof.
  intros Hclaim.
  destruct (Hclaim
              {| agents :=
                   {[ 1%positive :=
                        Agent.set_Functions [test_function] test_agent ]};
                 stores := ∅ |}
              {| agents :=
                   <[ 1%positive :=
                        Agent.set_Functions [test_function; test_function]
                          test_agent ]>
                     {[ 1%positive :=
                          Agent.set_Functions [test_function] test_agent ]};
                 stores := ∅ |}
              1%positive
              (Agent.set_Functions [test_function] test_agent)
              [test_function]) as (ag' & Hag' & Hnd).
  - reflexivity.
  - apply NoDup_singleton.
  - reflexivity.
  - cbn [agents] in Hag'. rewrite lookup_insert_eq in Hag'.
    injection Hag' as <-. cbn in Hnd.
    apply NoDup_cons in Hnd as [Hnin _]. apply Hnin. left.
Qed.

(** C5, amended. [WithFunctions] removes no duplicate: after the call the
    names are pairwise distinct exactly when they were before, the names of
    the new tools are pairwise distinct, and no new tool bears the name of a
    tool already registered. *)
Theorem WithFunctions_names_distinct (h : heap) (l : loc) (ag : Agent.t)
  (functions : list (AgentFunction.t (gmap string json.any))) :
  agents h !! l = Some ag →
  ∃ h' ag',
    WithFunctions (Some l) functions h = Return (Some l, h') ∧
    agents h' !! l = Some ag' ∧
    (NoDup (names (Agent.Functions ag')) ↔
     NoDup (names (Agent.Functions ag)) ∧
     NoDup (names functions) ∧
     ∀ n, n ∈ names (Agent.Functions ag) → n ∉ names functions).
Proof.
  intros Hl.
  exists {| agents :=
              <[l := Agent.set_Functions (Agent.Functions ag ++ functions) ag]>
                (agents h);
            stores := stores h |}.
  exists (Agent.set_Functions (Agent.Functions ag ++ functions) ag).
  split; [|split].
  - unfold WithFunctions, mbind, go_mbind, go_bind, load.
    rewrite Hl. by rewrite (assign_valid _ _ ag).
  - cbn [agents]. apply lookup_insert_eq.
  - cbn [Agent.set_Functions Agent.Functions]. unfold names.
    rewrite fmap_app, NoDup_app. tauto.
Qed.

Lemma WithFunctions_names_distinct_witness :
  ∃ h' ag',
    WithFunctions (Some 1%positive) [test_function] test_heap =
      Return (Some 1%positive, h') ∧
    agents h' !! 1%positive = Some ag' ∧
    NoDup (names (Agent.Functions ag')).
Proof.
  destruct (WithFunctions_names_distinct test_heap 1%positive test_agent
              [test_function]) as (h' & ag' & Hh' & Hag' & Hnd).
  - reflexivity.
  - exists h', ag'. split; [done|]. split; [done|]. apply Hnd.
    split; [apply NoDup_nil_2|]. split; [apply NoDup_singleton|].
    intros n Hn. by apply elem_of_nil in Hn.
Defined.

(** ** The builders *)

(** C10. On a valid agent pointer each of [WithConfig], [WithInstructions],
    [WithInstructionsFunc] and [WithParallelToolCalls] returns that same
    pointer and leaves the agent with the argument in the field the builder
    names and every other field as it was; every other agent and every
    memory store are as before. *)
Theorem builders_frame (h : heap) (l : loc) (ag : Agent.t)
  (config : ptr) (instructions : string)
  (f : option (gmap string json.any → string)) (enabled : bool) :
  agents h !! l = Some ag →
  WithConfig (Some l) config h =
    Return (Some l,
            {| agents :=
                 <[l := {| Agent.Name := Agent.Name ag;
                           Agent.Model := Agent.Model ag;
                           Agent.Provider := Agent.Provider ag;
                           Agent.Config := config;
                           Agent.Instructions := Agent.Instructions ag;
                           Agent.InstructionsFunc := Agent.InstructionsFunc ag;
                           Agent.Functions := Agent.Functions ag;
                           Agent.Memory := Agent.Memory ag;
                           Agent.ParallelToolCalls :=
                             Agent.ParallelToolCalls ag |}]> (agents h);
               stores := stores h |}) ∧
  WithInstructions (Some l) instructions h =
    Return (Some l,
            {| agents :=
                 <[l := {| Agent.Name := Agent.Name ag;
                           Agent.Model := Agent.Model ag;
                           Agent.Provider := Agent.Provider ag;
                           Agent.Config := Agent.Config ag;
                           Agent.Instructions := instructions;
                           Agent.InstructionsFunc := Agent.InstructionsFunc ag;
                           Agent.Functions := Agent.Functions ag;
                           Agent.Memory := Agent.Memory ag;
                           Agent.ParallelToolCalls :=
                             Agent.ParallelToolCalls ag |}]> (agents h);
               stores := stores h |}) ∧
  WithInstructionsFunc (Some l) f h =
    Return (Some l,
            {| agents :=
                 <[l := {| Agent.Name := Agent.Name ag;
                           Agent.Model := Agent.Model ag;
                           Agent.Provider := Agent.Provider ag;
                           Agent.Config := Agent.Config ag;
                           Agent.Instructions := Agent.Instructions ag;
                           Agent.InstructionsFunc := f;
                           Agent.Functions := Agent.Functions ag;
                           Agent.Memory := Agent.Memory ag;
                           Agent.ParallelToolCalls :=
                             Agent.ParallelToolCalls ag |}]> (agents h);
               stores := stores h |}) ∧
  WithParallelToolCalls (Some l) enabled h =
    Return (Some l,
            {| agents :=
                 <[l := {| Agent.Name := Agent.Name ag;
                           Agent.Model := Agent.Model ag;
                           Agent.Provider := Agent.Provider ag;
                           Agent.Config := Agent.Config ag;
                           Agent.Instructions := Agent.Instructions ag;
                           Agent.InstructionsFunc := Agent.InstructionsFunc ag;
                           Agent.Functions := Agent.Functions ag;
                           Agent.Memory := Agent.Memory ag;
                           Agent.ParallelToolCalls := enabled |}]> (agents h);
               stores := stores h |}).
Proof.
  intros Hl.
  unfold WithConfig, WithInstructions, WithInstructionsFunc,
    WithParallelToolCalls.
  by rewrite !(builder_valid _ _ ag).
Qed.

Lemma builders_frame_witness :
  ∃ h',
    WithParallelToolCalls (Some 1%positive) true test_heap =
      Return (Some 1%positive, h') ∧
    Agent.ParallelToolCalls <$> (agents h' !! 1%positive) = Some true ∧
    Agent.Name <$> (agents h' !! 1%positive) = Some "TestAgent".
Proof.
  destruct (builders_frame test_heap 1%positive test_agent nil "" None true)
    as (_ & _ & _ & Hp).
  - reflexivity.
  - eexists. split; [exact Hp|]. cbn [agents].
    rewrite lookup_insert_eq. by split.
Defined.

(** * Further properties of [agent.go] *)

(** ** The stripping loop on any map *)

(** X1. Ranging over any map in any order, the loop of [NewAgentFunction]
    panics with an index out of range exactly when the map has an empty
    key, and otherwise returns the entries of the map whose key does not
    begin with ['$'], each with its value. *)
Theorem NewAgentFunction_loop_outcome (ρ : list nat)
  (schemaMap : gmap string json.any) :
  NewAgentFunction_loop schemaMap (range ρ schemaMap) ∅ =
    if decide ("" ∈ dom schemaMap) then Panic index_out_of_range
    else Return (filter (λ kv, ¬ is_meta kv.1) schemaMap).
Proof.
  case_decide as Hempty.
  - apply loop_panics. by apply elem_of_range.
  - apply loop_filter. by intros k Hk ->.
Qed.

(** ** The keys of the parameters of a struct *)

Lemma required_nonempty fields :
  foldl add_required [] fields ≠ [] ↔
  ∃ f, f ∈ fields ∧ propertyName f ≠ "" ∧ reflect.tagRequired f = true.
Proof.
  split.
  - destruct (foldl add_required [] fields) as [|n rs] eqn:Hrs; [done|].
    intros _. assert (n ∈ foldl add_required [] fields) as Hn
      by (rewrite Hrs; left).
    apply elem_of_required in Hn as (Hne & f & Hf & <- & Hreq). eauto.
  - intros (f & Hf & Hne & Hreq) Hnil.
    assert (propertyName f ∈ foldl add_required [] fields) as Hin.
    { apply elem_of_required. eauto. }
    rewrite Hnil in Hin. by apply elem_of_nil in Hin.
Qed.

Lemma struct_params_dom id ps rs k :
  k ∈ dom (filter (λ kv : string * json.any, ¬ is_meta kv.1)
             (struct_schemaMap id ps rs)) ↔
  k = "type" ∨ k = "properties" ∨ k = "additionalProperties" ∨
  (k = "required" ∧ rs ≠ []).
Proof.
  destruct (struct_schemaMap_lookup id ps rs)
    as (Htype & Haddl & Hprops & Hreq).
  rewrite elem_of_dom. split.
  - intros [v Hv]. apply map_lookup_filter_Some in Hv as [Hv Hk].
    cbn [fst] in Hk. apply elem_of_dom_2 in Hv.
    unfold struct_schemaMap in Hv.
    apply dom_object_map in Hv as [Hv|Hv]; [by rewrite dom_empty in Hv|].
    unfold jsonschema.omitempty in Hv.
    destruct (decide (id = "")); destruct rs as [|r rs];
      cbn [fmap list_fmap fst app] in Hv;
      repeat (apply elem_of_cons in Hv as [->|Hv];
              [first [by destruct Hk | tauto | by auto 10]|]);
      by apply elem_of_nil in Hv.
  - intros [->|[->|[->|[-> Hrs]]]];
      rewrite lookup_filter_not_meta by discriminate.
    + by rewrite Htype.
    + by rewrite Hprops.
    + by rewrite Haddl.
    + rewrite Hreq. by destruct rs.
Qed.

(** X2. For a struct type whose fields are of scalar kinds and whose
    [jsonschema] tags hold only [required] and [description=], the
    parameters have the keys ["type"], ["properties"] and
    ["additionalProperties"], the key ["required"] exactly when some field
    with a name is tagged [required], and no other key. *)
Theorem NewAgentFunction_struct_keys
  {I} `{Zero I, reflect.Typed I, json.Unmarshaler I}
  (ρ : list nat) (name description : string)
  (executor : AgentFunctionExecutor I) (fields : list reflect.StructField) :
  reflect.TypeShape (reflect.TypeOf (zero : I)) = reflect.StructOf fields →
  ∃ af,
    NewAgentFunction ρ name description executor = Return (Ok af) ∧
    ∀ k, k ∈ dom (AgentFunction.params af) ↔
         k = "type" ∨ k = "properties" ∨ k = "additionalProperties" ∨
         (k = "required" ∧
          ∃ f, f ∈ fields ∧ propertyName f ≠ "" ∧
               reflect.tagRequired f = true).
Proof.
  intros Hshape.
  destruct (NewAgentFunction_returns ρ name description executor)
    as (m & Hm & ->).
  rewrite (schemaMap_of_struct I fields Hshape) in Hm. injection Hm as <-.
  eexists. split; [done|]. intros k. cbn [AgentFunction.params].
  by rewrite struct_params_dom, required_nonempty.
Qed.

Lemma NewAgentFunction_struct_keys_witness :
  ∃ af,
    NewAgentFunction (I := TestFunctionArgs.t) [] "testFunction"
      "A test function" test_executor = Return (Ok af) ∧
    "properties" ∈ dom (AgentFunction.params af) ∧
    ("required" ∉ dom (AgentFunction.params af)) ∧
    ("$schema" ∉ dom (AgentFunction.params af)).
Proof.
  edestruct (NewAgentFunction_struct_keys (I := TestFunctionArgs.t) []
               "testFunction" "A test function" test_executor)
    as (af & Haf & Hkeys); [reflexivity|].
  exists af. split; [exact Haf|]. clear Haf. split; [|split].
  - apply Hkeys. tauto.
  - intros Hk. apply Hkeys in Hk as [Hk|[Hk|[Hk|[_ (f & Hf & _ & Hreq)]]]];
      try discriminate Hk.
    apply list_elem_of_singleton in Hf as ->. discriminate Hreq.
  - intros Hk. apply Hkeys in Hk as [Hk|[Hk|[Hk|[Hk _]]]]; discriminate Hk.
Defined.

(** ** The definition of a compiled tool *)

(** X3. For every argument type that is a scalar, [map[string]interface{}]
    or a struct of scalar fields, the definition [FunctionToDefinition] makes
    of the tool [NewAgentFunction] returns has the name and the description
    given to [NewAgentFunction], and as parameters the reflected schema map
    without its keys beginning with ['$'].  (On other types, a channel or a
    nil type for one, the reflector can panic; they are not covered.) *)
Theorem FunctionToDefinition_NewAgentFunction
  {I} `{Zero I, reflect.Typed I, json.Unmarshaler I}
  (ρ : list nat) (name description : string)
  (executor : AgentFunctionExecutor I) :
  ∃ af schemaMap,
    NewAgentFunction ρ name description executor = Return (Ok af) ∧
    schemaMap_of I = Ok schemaMap ∧
    FunctionToDefinition af =
      {| llm.Name := name;
         llm.Description := description;
         llm.Parameters := filter (λ kv, ¬ is_meta kv.1) schemaMap |}.
Proof.
  destruct (NewAgentFunction_returns ρ name description executor)
    as (m & Hm & ->).
  by eexists _, m.
Qed.

(** ** The builders as store transformers *)

(** A builder that assigns [upd] through [a] and returns [a]. *)
Lemma builder_run (a : ptr) (upd : Agent.t → Agent.t) (h : heap) :
  (assign a upd ≫= λ _, mret a) h =
    match a with
    | Some l =>
        match agents h !! l with
        | Some ag =>
            Return (Some l, {| agents := <[l := upd ag]> (agents h);
                               stores := stores h |})
        | None => Panic nil_dereference
        end
    | None => Panic nil_dereference
    end.
Proof.
  unfold mbind, go_mbind, go_bind, assign.
  destruct a as [l|]; [|done]. by destruct (agents h !! l).
Qed.

(** [WithFunctions] is the builder that appends. *)
Lemma WithFunctions_run (a : ptr)
  (functions : list (AgentFunction.t (gmap string json.any))) (h : heap) :
  WithFunctions a functions h =
    (assign a (λ ag, Agent.set_Functions (Agent.Functions ag ++ functions) ag)
     ≫= λ _, mret a) h.
Proof.
  unfold WithFunctions, mbind, go_mbind, go_bind, load, assign.
  destruct a as [l|]; [|done].
  destruct (agents h !! l) as [ag|] eqn:Hl; [|done]. by rewrite Hl.
Qed.

(** Two builders in a row on the same receiver are one builder. *)
Lemma builder_seq (b1 b2 : ptr → go ptr) (upd1 upd2 : Agent.t → Agent.t)
  (a : ptr) (h : heap) :
  (∀ a h, b1 a h = (assign a upd1 ≫= λ _, mret a) h) →
  (∀ a h, b2 a h = (assign a upd2 ≫= λ _, mret a) h) →
  (b1 a ≫= b2) h = (assign a (upd2 ∘ upd1) ≫= λ _, mret a) h.
Proof.
  intros H1 H2. change ((b1 a ≫= b2) h) with (go_bind b2 (b1 a) h).
  unfold go_bind. rewrite H1, !builder_run.
  destruct a as [l|]; [|done].
  destruct (agents h !! l) as [ag|] eqn:Hl; [|done].
  rewrite H2, builder_run. cbn [agents stores].
  rewrite lookup_insert_eq. by rewrite insert_insert_eq.
Qed.

Lemma builder_ext (a : ptr) (upd upd' : Agent.t → Agent.t) (h : heap) :
  (∀ ag, upd ag = upd' ag) →
  (assign a upd ≫= λ _, mret a) h = (assign a upd' ≫= λ _, mret a) h.
Proof.
  intros Hext. rewrite !builder_run. destruct a as [l|]; [|done].
  destruct (agents h !! l); [|done]. by rewrite Hext.
Qed.

(** X4. Each builder returns normally exactly when its receiver points to an
    agent; on any other receiver, nil in particular, it panics with a nil
    pointer dereference. *)
Theorem builders_return_iff_valid (a : ptr) (h : heap)
  (functions : list (AgentFunction.t (gmap string json.any)))
  (config : ptr) (instructions : string)
  (f : option (gmap string json.any → string)) (enabled : bool) :
  let valid := ∃ l ag, a = Some l ∧ agents h !! l = Some ag in
  let returns (o : outcome (ptr * heap)) :=
    (valid ∧ ∃ h', o = Return (a, h')) ∨
    (¬ valid ∧ o = Panic nil_dereference) in
  returns (WithFunctions a functions h) ∧
  returns (WithConfig a config h) ∧
  returns (WithInstructions a instructions h) ∧
  returns (WithInstructionsFunc a f h) ∧
  returns (WithParallelToolCalls a enabled h).
Proof.
  intros valid returns.
  assert (∀ upd, returns ((assign a upd ≫= λ _, mret a) h)) as Hrun.
  { intros upd. rewrite builder_run. unfold returns, valid.
    destruct a as [l|].
    - destruct (agents h !! l) as [ag|] eqn:Hl.
      + left. split; eauto.
      + right. split; [|done]. intros (l' & ag & [= <-] & Hag). congruence.
    - right. split; [|done]. by intros (l' & ag & [=] & _). }
  rewrite WithFunctions_run.
  unfold WithConfig, WithInstructions, WithInstructionsFunc,
    WithParallelToolCalls.
  repeat split; apply Hrun.
Qed.

(** X5. The builders that set a field overwrite it: calling one of
    [WithConfig], [WithInstructions], [WithInstructionsFunc] and
    [WithParallelToolCalls] twice in a row is the second call alone. *)
Theorem builders_overwrite (a : ptr) (h : heap)
  (config1 config2 : ptr) (instructions1 instructions2 : string)
  (f1 f2 : option (gmap string json.any → string))
  (enabled1 enabled2 : bool) :
  (WithConfig a config1 ≫= λ a', WithConfig a' config2) h =
    WithConfig a config2 h ∧
  (WithInstructions a instructions1
     ≫= λ a', WithInstructions a' instructions2) h =
    WithInstructions a instructions2 h ∧
  (WithInstructionsFunc a f1 ≫= λ a', WithInstructionsFunc a' f2) h =
    WithInstructionsFunc a f2 h ∧
  (WithParallelToolCalls a enabled1
     ≫= λ a', WithParallelToolCalls a' enabled2) h =
    WithParallelToolCalls a enabled2 h.
Proof.
  split; [|split; [|split]].
  - rewrite (builder_seq (λ a, WithConfig a config1)
               (λ a, WithConfig a config2) (Agent.set_Config config1)
               (Agent.set_Config config2)) by done.
    by apply builder_ext.
  - rewrite (builder_seq (λ a, WithInstructions a instructions1)
               (λ a, WithInstructions a instructions2)
               (Agent.set_Instructions instructions1)
               (Agent.set_Instructions instructions2)) by done.
    by apply builder_ext.
  - rewrite (builder_seq (λ a, WithInstructionsFunc a f1)
               (λ a, WithInstructionsFunc a f2)
               (Agent.set_InstructionsFunc f1)
               (Agent.set_InstructionsFunc f2)) by done.
    by apply builder_ext.
  - rewrite (builder_seq (λ a, WithParallelToolCalls a enabled1)
               (λ a, WithParallelToolCalls a enabled2)
               (Agent.set_ParallelToolCalls enabled1)
               (Agent.set_ParallelToolCalls enabled2)) by done.
    by apply builder_ext.
Qed.

(** X6. [WithFunctions] accumulates: two calls in a row are one call with
    the arguments of the first followed by those of the second. *)
Theorem WithFunctions_accumulates (a : ptr) (h : heap)
  (functions1 functions2 : list (AgentFunction.t (gmap string json.any))) :
  (WithFunctions a functions1 ≫= λ a', WithFunctions a' functions2) h =
    WithFunctions a (functions1 ++ functions2) h.
Proof.
  rewrite (builder_seq (λ a, WithFunctions a functions1)
             (λ a, WithFunctions a functions2)
             (λ ag, Agent.set_Functions (Agent.Functions ag ++ functions1) ag)
             (λ ag, Agent.set_Functions (Agent.Functions ag ++ functions2) ag))
    by (intros; apply WithFunctions_run).
  rewrite WithFunctions_run. apply builder_ext. intros ag. cbn.
  by rewrite app_assoc.
Qed.

(** X7. Builders of different fields commute: in either order the two calls
    return the same pointer and leave the same store. *)
Theorem builders_commute (a : ptr) (h : heap)
  (functions : list (AgentFunction.t (gmap string json.any)))
  (config : ptr) (instructions : string)
  (f : option (gmap string json.any → string)) (enabled : bool) :
  (WithFunctions a functions ≫= λ a', WithConfig a' config) h =
    (WithConfig a config ≫= λ a', WithFunctions a' functions) h ∧
  (WithFunctions a functions ≫= λ a', WithInstructions a' instructions) h =
    (WithInstructions a instructions ≫= λ a', WithFunctions a' functions) h ∧
  (WithFunctions a functions ≫= λ a', WithInstructionsFunc a' f) h =
    (WithInstructionsFunc a f ≫= λ a', WithFunctions a' functions) h ∧
  (WithFunctions a functions ≫= λ a', WithParallelToolCalls a' enabled) h =
    (WithParallelToolCalls a enabled ≫= λ a', WithFunctions a' functions) h ∧
  (WithConfig a config ≫= λ a', WithInstructions a' instructions) h =
    (WithInstructions a instructions ≫= λ a', WithConfig a' config) h ∧
  (WithConfig a config ≫= λ a', WithInstructionsFunc a' f) h =
    (WithInstructionsFunc a f ≫= λ a', WithConfig a' config) h ∧
  (WithConfig a config ≫= λ a', WithParallelToolCalls a' enabled) h =
    (WithParallelToolCalls a enabled ≫= λ a', WithConfig a' config) h ∧
  (WithInstructions a instructions ≫= λ a', WithInstructionsFunc a' f) h =
    (WithInstructionsFunc a f ≫= λ a', WithInstructions a' instructions) h ∧
  (WithInstructions a instructions
     ≫= λ a', WithParallelToolCalls a' enabled) h =
    (WithParallelToolCalls a enabled
       ≫= λ a', WithInstructions a' instructions) h ∧
  (WithInstructionsFunc a f ≫= λ a', WithParallelToolCalls a' enabled) h =
    (WithParallelToolCalls a enabled ≫= λ a', WithInstructionsFunc a' f) h.
Proof.
  assert (∀ (b1 b2 : ptr → go ptr) upd1 upd2,
            (∀ a h, b1 a h = (assign a upd1 ≫= λ _, mret a) h) →
            (∀ a h, b2 a h = (assign a upd2 ≫= λ _, mret a) h) →
            (∀ ag, upd2 (upd1 ag) = upd1 (upd2 ag)) →
            (b1 a ≫= b2) h = (b2 a ≫= b1) h) as Hcomm.
  { intros b1 b2 upd1 upd2 H1 H2 Hupd.
    rewrite (builder_seq b1 b2 upd1 upd2), (builder_seq b2 b1 upd2 upd1)
      by done.
    apply builder_ext. intros ag. apply Hupd. }
  pose (bF := λ a, WithFunctions a functions).
  pose (uF := λ ag,
          Agent.set_Functions (Agent.Functions ag ++ functions) ag).
  pose (bC := λ a, WithConfig a config).
  pose (bI := λ a, WithInstructions a instructions).
  pose (bG := λ a, WithInstructionsFunc a f).
  pose (bP := λ a, WithParallelToolCalls a enabled).
  assert (∀ a h, bF a h = (assign a uF ≫= λ _, mret a) h) as HF
    by (intros; apply WithFunctions_run).
  split; [|split; [|split; [|split; [|split; [|split; [|split; [|split;
    [|split]]]]]]]].
  - by apply (Hcomm bF bC uF (Agent.set_Config config)).
  - by apply (Hcomm bF bI uF (Agent.set_Instructions instructions)).
  - by apply (Hcomm bF bG uF (Agent.set_InstructionsFunc f)).
  - by apply (Hcomm bF bP uF (Agent.set_ParallelToolCalls enabled)).
  - by apply (Hcomm bC bI (Agent.set_Config config)
                (Agent.set_Instructions instructions)).
  - by apply (Hcomm bC bG (Agent.set_Config config)
                (Agent.set_InstructionsFunc f)).
  - by apply (Hcomm bC bP (Agent.set_Config config)
                (Agent.set_ParallelToolCalls enabled)).
  - by apply (Hcomm bI bG (Agent.set_Instructions instructions)
                (Agent.set_InstructionsFunc f)).
  - by apply (Hcomm bI bP (Agent.set_Instructions instructions)
                (Agent.set_ParallelToolCalls enabled)).
  - by apply (Hcomm bG bP (Agent.set_InstructionsFunc f)
                (Agent.set_ParallelToolCalls enabled)).
Qed.

(** ** Building an agent *)

(** X8. Building an agent with [NewAgent] and chaining the five builders on
    the pointer it returns never panics: the chain returns the pointer of
    [NewAgent], a new address, to an agent that has the arguments of the
    calls in its fields and a new memory store of capacity 100; the agents
    and the stores that were there are as before. *)
Theorem NewAgent_builder_chain (name model : string)
  (provider : llm.LLMProvider) (config : ptr) (instructions : string)
  (f : option (gmap string json.any → string))
  (functions : list (AgentFunction.t (gmap string json.any)))
  (enabled : bool) (h : heap) :
  ∃ a m,
    (a ∉ dom (agents h)) ∧ (m ∉ dom (stores h)) ∧
    (NewAgent name model provider
       ≫= λ a, WithConfig a config
       ≫= λ a, WithInstructions a instructions
       ≫= λ a, WithInstructionsFunc a f
       ≫= λ a, WithFunctions a functions
       ≫= λ a, WithParallelToolCalls a enabled) h =
      Return (Some a,
              {| agents :=
                   <[a := {| Agent.Name := name;
                             Agent.Model := model;
                             Agent.Provider := provider;
                             Agent.Config := config;
                             Agent.Instructions := instructions;
                             Agent.InstructionsFunc := f;
                             Agent.Functions := functions;
                             Agent.Memory := Some m;
                             Agent.ParallelToolCalls := enabled |}]>
                     (agents h);
                 stores :=
                   <[m := {| MemoryStore.capacity := 100;
                             MemoryStore.log := [] |}]> (stores h) |}).
Proof.
  exists (fresh (dom (agents h))), (fresh (dom (stores h))).
  split; [apply is_fresh|]. split; [apply is_fresh|].
  unfold mbind, go_mbind. unfold go_bind at 1.
  change (NewAgent name model provider h) with
    (Return (Some (fresh (dom (agents h))),
             {| agents :=
                  <[fresh (dom (agents h)) :=
                      {| Agent.Name := name;
                         Agent.Model := model;
                         Agent.Provider := provider;
                         Agent.Config := nil;
                         Agent.Instructions := "";
                         Agent.InstructionsFunc := None;
                         Agent.Functions := [];
                         Agent.Memory := Some (fresh (dom (stores h)));
                         Agent.ParallelToolCalls := false |}]> (agents h);
                stores :=
                  <[fresh (dom (stores h)) :=
                      {| MemoryStore.capacity := 100;
                         MemoryStore.log := [] |}]> (stores h) |})).
  cbv beta iota.
  unfold go_bind at 1, WithConfig. rewrite builder_run. cbn [agents stores].
  rewrite lookup_insert_eq, insert_insert_eq.
  unfold go_bind at 1, WithInstructions. rewrite builder_run.
  cbn [agents stores]. rewrite lookup_insert_eq, insert_insert_eq.
  unfold go_bind at 1, WithInstructionsFunc. rewrite builder_run.
  cbn [agents stores]. rewrite lookup_insert_eq, insert_insert_eq.
  unfold go_bind at 1. rewrite WithFunctions_run, builder_run.
  cbn [agents stores]. rewrite lookup_insert_eq, insert_insert_eq.
  unfold WithParallelToolCalls. rewrite builder_run.
  cbn [agents stores]. rewrite lookup_insert_eq, insert_insert_eq.
  reflexivity.
Qed.

(** X9. Two calls of [NewAgent] give two agents at different addresses with
    different memory stores, and the second call leaves the agent of the
    first as it made it. *)
Theorem NewAgent_twice (name1 model1 name2 model2 : string)
  (provider1 provider2 : llm.LLMProvider) (h : heap) :
  ∃ a1 a2 m1 m2 h',
    (NewAgent name1 model1 provider1
       ≫= λ p1, NewAgent name2 model2 provider2
       ≫= λ p2, mret (p1, p2)) h = Return ((Some a1, Some a2), h') ∧
    a1 ≠ a2 ∧ m1 ≠ m2 ∧
    agents h' !! a1 =
      Some {| Agent.Name := name1;
              Agent.Model := model1;
              Agent.Provider := provider1;
              Agent.Config := nil;
              Agent.Instructions := "";
              Agent.InstructionsFunc := None;
              Agent.Functions := [];
              Agent.Memory := Some m1;
              Agent.ParallelToolCalls := false |} ∧
    Agent.Memory <$> (agents h' !! a2) = Some (Some m2) ∧
    (∀ l, l ∈ dom (agents h) → agents h' !! l = agents h !! l).
Proof.
  set (a1 := fresh (dom (agents h))).
  set (m1 := fresh (dom (stores h))).
  set (ag1 := {| Agent.Name := name1;
                 Agent.Model := model1;
                 Agent.Provider := provider1;
                 Agent.Config := nil;
                 Agent.Instructions := "";
                 Agent.InstructionsFunc := None;
                 Agent.Functions := [];
                 Agent.Memory := Some m1;
                 Agent.ParallelToolCalls := false |}).
  set (st1 := <[m1 := {| MemoryStore.capacity := 100;
                         MemoryStore.log := [] |}]> (stores h)).
  set (a2 := fresh (dom (<[a1 := ag1]> (agents h)))).
  set (m2 := fresh (dom st1)).
  assert (a1 ∉ dom (agents h)) as Ha1 by apply is_fresh.
  assert (a2 ∉ dom (<[a1 := ag1]> (agents h))) as Ha2 by apply is_fresh.
  assert (m2 ∉ dom st1) as Hm2 by apply is_fresh.
  assert (a1 ≠ a2) as Hne.
  { intros Heq. apply Ha2. rewrite <-Heq, dom_insert. set_solver. }
  exists a1, a2, m1, m2. eexists. split; [reflexivity|].
  split; [done|]. split.
  { intros Heq. apply Hm2. rewrite <-Heq. unfold st1. rewrite dom_insert.
    set_solver. }
  cbn [agents]. fold m1 a1 ag1 st1. fold a2 m2. split; [|split].
  - rewrite lookup_insert_ne by done. apply lookup_insert_eq.
  - by rewrite lookup_insert_eq.
  - intros l Hl. rewrite !lookup_insert_ne; [done| |]; intros <-; [done|].
    apply Ha2. rewrite dom_insert. set_solver.
Qed.

(** X10. [WithFunctions] with no tool leaves the store as it is. *)
Theorem WithFunctions_nothing (h : heap) (l : loc) (ag : Agent.t) :
  agents h !! l = Some ag →
  WithFunctions (Some l) [] h = Return (Some l, h).
Proof.
  intros Hl. rewrite WithFunctions_run, builder_run, Hl.
  destruct h as [ags sts], ag. cbn in *.
  rewrite app_nil_r. by rewrite insert_id.
Qed.

Lemma WithFunctions_nothing_witness :
  WithFunctions (Some 1%positive) [] test_heap =
    Return (Some 1%positive, test_heap).
Proof. apply (WithFunctions_nothing test_heap 1%positive test_agent). reflexivity. Defined.

(** ** Tools that take a [map[string]interface{}] *)

Lemma members_of_Ok l ms :
  json.members_of l = Ok ms → l = (λ kt, (kt.1, Ok kt.2)) <$> ms.
Proof.
  revert ms. induction l as [|[k [t|e]] l IH]; intros ms; simpl.
  - by intros [= <-].
  - destruct (json.members_of l) as [ms'|e]; simpl; [|done].
    intros [= <-]. rewrite fmap_cons. f_equal. by apply IH.
  - done.
Qed.

Lemma members_of_Err l e :
  json.members_of l = Err e → ∃ k, (k, Err e) ∈ l.
Proof.
  induction l as [|[k [t|e']] l IH]; simpl; [done| |].
  - destruct (json.members_of l) as [ms'|e'']; simpl; [done|].
    intros [= <-]. destruct IH as [k' Hk']; [done|]. exists k'. by right.
  - intros [= <-]. exists k. left.
Qed.

Lemma insert_by_key_Permutation {V} (kv : string * V) l :
  json.insert_by_key kv l ≡ₚ kv :: l.
Proof.
  induction l as [|kv' l IH]; simpl; [done|].
  destruct (String.leb kv.1 kv'.1); [done|]. rewrite IH. apply Permutation_swap.
Qed.

Lemma sort_by_key_Permutation {V} (l : list (string * V)) :
  json.sort_by_key l ≡ₚ l.
Proof.
  unfold json.sort_by_key. induction l as [|kv l IH]; simpl; [done|].
  by rewrite insert_by_key_Permutation, IH.
Qed.

(** The entries [Marshal] goes through for a map are the encodings of the
    values of the map. *)
Lemma elem_of_encoded_entries (args : gmap string json.any) k r :
  (k, r) ∈ json.sort_by_key (map_to_list (json.encode <$> args)) ↔
  ∃ v, args !! k = Some v ∧ json.encode v = r.
Proof.
  rewrite sort_by_key_Permutation, elem_of_map_to_list, lookup_fmap.
  destruct (args !! k) as [v|]; simpl.
  - split; [intros [= Hv]; eauto|]. by intros (v' & [= <-] & ->).
  - split; [done|]. by intros (v' & [=] & _).
Qed.

(** X12. A tool compiled for the argument type [map[string]interface{}], as
    in [TestRun]: when some value of the argument map cannot be encoded, the
    executor of the tool returns a [Result] with [Success] false whose error
    is ["error marshaling arguments: "] followed by the error of encoding a
    value of the map that cannot be encoded, whatever the user's executor
    is. *)
Theorem map_tool_marshal_failure (ρ : list nat) (name description : string)
  (args contextVariables : gmap string json.any)
  (k : string) (v : json.any) (cause : string) :
  args !! k = Some v →
  json.encode v = Err cause →
  ∃ err k' v',
    args !! k' = Some v' ∧
    json.encode v' = Err err ∧
    ∀ executor : AgentFunctionExecutor (gmap string json.any),
      ∃ af,
        NewAgentFunction ρ name description executor = Return (Ok af) ∧
        AgentFunction.executor af args contextVariables =
          Return {| Result.Success := false;
                    Result.Data := json.Nil;
                    Result.Error :=
                      Some ("error marshaling arguments: " +:+ err);
                    Result.Agent := nil |}.
Proof.
  intros Hv Hcause.
  destruct (json.members_of
              (json.sort_by_key (map_to_list (json.encode <$> args))))
    as [ms|err] eqn:Hms.
  { apply members_of_Ok in Hms.
    assert ((k, Err cause) ∈ json.sort_by_key
                               (map_to_list (json.encode <$> args))) as Hin
      by (apply elem_of_encoded_entries; eauto).
    rewrite Hms in Hin. apply list_elem_of_fmap in Hin as (kt & [=] & _). }
  destruct (members_of_Err _ _ Hms) as [k' Hk'].
  apply elem_of_encoded_entries in Hk' as (v' & Hv' & Herr).
  exists err, k', v'. split; [done|]. split; [done|]. intros executor.
  destruct (NewAgentFunction_returns ρ name description executor)
    as (m & _ & ->).
  eexists. split; [done|]. cbn [AgentFunction.executor].
  unfold NewAgentFunction_executor, json.Marshal, json.marshalJSON,
    json.marshal_map.
  cbn [json.encode]. by rewrite Hms.
Qed.

Lemma map_tool_marshal_failure_witness :
  ∃ err af,
    json.encode json.Chan = Err err ∧
    NewAgentFunction (I := gmap string json.any) [] "testFunction"
      "A test function" panicking_executor = Return (Ok af) ∧
    AgentFunction.executor af {[ "arg1" := json.Chan ]} ∅ =
      Return {| Result.Success := false;
                Result.Data := json.Nil;
                Result.Error := Some ("error marshaling arguments: " +:+ err);
                Result.Agent := nil |}.
Proof.
  destruct (map_tool_marshal_failure [] "testFunction" "A test function"
              {[ "arg1" := json.Chan ]} ∅ "arg1" json.Chan
              "json: unsupported type: chan int")
    as (err & k' & v' & Hv' & Herr & Hex).
  - apply lookup_singleton_eq.
  - reflexivity.
  - apply lookup_singleton_Some in Hv' as [_ <-].
    destruct (Hex panicking_executor) as (af & Haf & Hres).
    exists err, af. split; [exact Herr|]. split; [exact Haf|exact Hres].
Defined.
